(** * ai-photo-critic: the workflow controller, the aspect-ratio heuristic,
      the response validator and the comparison viewer

    A shallow embedding of
      - [services/geminiService.ts]  ([getBestAspectRatio], the type validation
        of [analyzeImage], in its two variants),
      - [App.tsx]                    (the handlers of the workflow),
      - [components/ComparisonView.tsx] (slider, pan and zoom).

    Conventions.
      - A JavaScript [number] is an exact rational ([Q]): the arithmetic of
        the source is +, -, *, /, [Math.abs], [Math.min], [Math.max] and
        comparisons, written here with the operations of [QArith].  Rounding
        to binary64 is not modelled.  Where the source divides by a measure
        that can be zero (the width of the container of the slider), the
        result is a [Js.number], which has the infinities and NaN besides
        the rationals; the other divisions are stated with a non-zero
        divisor.
      - A JavaScript string is a [string] of bytes; [toLowerCase] acts on the
        ASCII letters, which are the only ones the ratio keywords contain.
      - React state is a record; a handler is a function from the state (and
        the event's payload) to the next state; the part of an [async]
        handler that runs after an [await] is a task kept in the list of
        pending tasks until the environment settles it. *)

From Stdlib Require Import ZArith QArith Qabs Qminmax Qround.
From Stdlib Require Import List String Ascii Bool Arith Lia Lqa.
Import ListNotations.

Local Open Scope string_scope.
Local Open Scope Q_scope.

(** ** Strings, as the source uses them *)

Module Js.

(** [c.toLowerCase()] on one ASCII character. *)
Definition lower_ascii (c : ascii) : ascii :=
  let n := nat_of_ascii c in
  if (65 <=? n)%nat && (n <=? 90)%nat then ascii_of_nat (n + 32) else c.

(** [s.toLowerCase()] *)
Fixpoint toLowerCase (s : string) : string :=
  match s with
  | EmptyString => EmptyString
  | String c t => String (lower_ascii c) (toLowerCase t)
  end.

(** [parts.join(sep)] *)
Fixpoint join (sep : string) (parts : list string) : string :=
  match parts with
  | [] => ""
  | [p] => p
  | p :: rest => p ++ sep ++ join sep rest
  end.

(** [hay.includes(needle)]: [needle] occurs in [hay] at some offset. *)
Fixpoint includes (hay needle : string) : bool :=
  if String.prefix needle hay then true
  else match hay with
       | EmptyString => false
       | String _ t => includes t needle
       end.

(** [Array.prototype.reduce] without an initial value: the first element
    seeds the accumulator; on an empty array the call throws. *)
Definition reduce {A : Type} (f : A -> A -> A) (l : list A) : option A :=
  match l with
  | [] => None
  | x :: t => Some (fold_left f t x)
  end.

(** [a < b] on numbers. *)
Definition ltb (a b : Q) : bool := negb (Qle_bool b a).

(** The callback of a [reduce] that keeps the accumulator unless the
    current element is strictly smaller under the measure [d]. *)
Definition keep {A : Type} (d : A -> Q) (prev curr : A) : A :=
  if ltb (d curr) (d prev) then curr else prev.

(** [r], at position [i] of [l], is the first element of least measure:
    no element has a smaller measure, every earlier one has a larger one. *)
Definition firstLeast {A : Type} (d : A -> Q) (l : list A) (i : nat) (r : A) : Prop :=
  nth_error l i = Some r /\
  (forall j c, nth_error l j = Some c -> d r <= d c) /\
  (forall j c, (j < i)%nat -> nth_error l j = Some c -> d r < d c).

(** No character of [k] is a space. *)
Fixpoint spaceFree (k : string) : bool :=
  match k with
  | EmptyString => true
  | String c k' => negb (Ascii.eqb c " ") && spaceFree k'
  end.

(** What a division by a number that may be zero yields: a finite value, an
    infinity, or NaN. *)
Inductive number :=
| Finite (q : Q)
| PosInfinity
| NegInfinity
| NaN.

(** [a / b] on finite numbers: by zero, an infinity of the sign of [a], and
    NaN for [0 / 0]. *)
Definition divide (a b : Q) : number :=
  if Qeq_bool b 0 then
    if Qeq_bool a 0 then NaN
    else if ltb 0 a then PosInfinity else NegInfinity
  else Finite (a / b).

(** [x * c] for a finite [c]. *)
Definition times (x : number) (c : Q) : number :=
  match x with
  | Finite q => Finite (q * c)
  | PosInfinity =>
      if ltb 0 c then PosInfinity else if ltb c 0 then NegInfinity else NaN
  | NegInfinity =>
      if ltb 0 c then NegInfinity else if ltb c 0 then PosInfinity else NaN
  | NaN => NaN
  end.

(** [Math.min(a, x)] for a finite [a]: NaN if [x] is NaN. *)
Definition mathMin (a : Q) (x : number) : number :=
  match x with
  | Finite q => Finite (Qmin a q)
  | PosInfinity => Finite a
  | NegInfinity => NegInfinity
  | NaN => NaN
  end.

(** [Math.max(a, x)] for a finite [a]: NaN if [x] is NaN. *)
Definition mathMax (a : Q) (x : number) : number :=
  match x with
  | Finite q => Finite (Qmax a q)
  | PosInfinity => PosInfinity
  | NegInfinity => Finite a
  | NaN => NaN
  end.

(** [s.startsWith(p)] *)
Definition startsWith (s p : string) : bool := String.prefix p s.

(** [s.split(sep)] for a separator of one character. *)
Fixpoint split (sep : ascii) (s : string) : list string :=
  match s with
  | EmptyString => [EmptyString]
  | String c t =>
      if Ascii.eqb c sep then EmptyString :: split sep t
      else match split sep t with
           | piece :: rest => String c piece :: rest
           | [] => [String c EmptyString]
           end
  end.

(** [Math.round(x)]: the nearest integer, a half going up. *)
Definition round (x : Q) : Z := Qfloor (x + (1 # 2)).

End Js.

(** ** [types.ts] *)

Record SuggestedEdit := { edit : string; reason : string }.

Record PhotoAnalysis := {
  rating : Q;
  projected_rating : Q;
  composition : string;
  lighting : string;
  subject : string;
  overall_comment : string;
  suggested_edits : list SuggestedEdit
}.

(** ** [getBestAspectRatio] (geminiService.ts) *)

Module AspectRatio.

(** [edits.map(e => e.edit.toLowerCase()).join(' ')] *)
Definition combinedEdits (edits : list SuggestedEdit) : string :=
  Js.join " " (map (fun e => Js.toLowerCase (edit e)) edits).

Record Candidate := { s : string; v : Q }.

Definition supported : list Candidate :=
  [ {| s := "1:1";  v := 1 |};
    {| s := "3:4";  v := 0.75 |};
    {| s := "4:3";  v := 1.3333 |};
    {| s := "9:16"; v := 0.5625 |};
    {| s := "16:9"; v := 1.7778 |} ].

(** The callback of the [reduce]:
    [Math.abs(curr.v - ratio) < Math.abs(prev.v - ratio) ? curr : prev] *)
Definition closer (ratio : Q) (prev curr : Candidate) : Candidate :=
  if Js.ltb (Qabs (v curr - ratio)) (Qabs (v prev - ratio)) then curr else prev.

(** [supported.reduce((prev, curr) => ...)]; the table is a literal with
    five entries, so the [reduce] never meets the empty array. *)
Definition closestSupported (ratio : Q) : Candidate :=
  match Js.reduce (closer ratio) supported with
  | Some c => c
  | None => {| s := ""; v := 0 |}
  end.

Definition getBestAspectRatio (w h : Q) (edits : list SuggestedEdit) : string :=
  let combined := combinedEdits edits in
  if Js.includes combined "16:9" then "16:9"
  else if Js.includes combined "9:16" then "9:16"
  else if Js.includes combined "4:3" then "4:3"
  else if Js.includes combined "3:4" then "3:4"
  else if Js.includes combined "1:1" || Js.includes combined "square" then "1:1"
  else
    let ratio := w / h in
    s (closestSupported ratio).

(** The ratio keywords of step 1, in the order the source tests them. *)
Definition keywords : list string :=
  ["16:9"; "9:16"; "4:3"; "3:4"; "1:1"; "square"].

(** The first keyword, in that order, that occurs in [text]. *)
Definition firstKeyword (text : string) : option string :=
  find (Js.includes text) keywords.

(** What the source returns for a keyword: the keyword itself, except that
    [square] stands for the ratio [1:1]. *)
Definition ratioOfKeyword (k : string) : string :=
  if String.eqb k "square" then "1:1" else k.

(** The text the specification describes, to compare with [combinedEdits]:
    the instructions put end to end with nothing between them, lower-cased. *)
Definition concatenatedEdits (edits : list SuggestedEdit) : string :=
  Js.toLowerCase (Js.join "" (map edit edits)).

(** *** Vocabulary of the properties, and sample instructions *)

(** The distance the [reduce] compares. *)
Definition distance (ratio : Q) (c : Candidate) : Q := Qabs (v c - ratio).

(** [c], at position [i] of the table, is the first entry nearest to [ratio]. *)
Definition nearestFirst (ratio : Q) (i : nat) (c : Candidate) : Prop :=
  Js.firstLeast (distance ratio) supported i c.

Definition noEdits : list SuggestedEdit := [].

Definition cropForMobile : list SuggestedEdit :=
  [ {| edit := "Crop to 9:16 for mobile"; reason := "" |} ].

Definition makeItSquare : list SuggestedEdit :=
  [ {| edit := "Make it square"; reason := "" |} ].

(** Two instructions with a ratio written across their boundary. *)
Definition acrossTwoEdits : list SuggestedEdit :=
  [ {| edit := "Crop to 16:"; reason := "" |};
    {| edit := "9 for the banner"; reason := "" |} ].

(** C3 as stated: whenever one of the six tokens occurs in [text edits],
    the value returned is the first token, in priority order, that occurs.
    [text] is the lower-cased concatenation of the instructions. *)
Definition ReturnsFirstToken (text : list SuggestedEdit -> string) : Prop :=
  forall (w h : Q) (edits : list SuggestedEdit) (k : string),
    firstKeyword (text edits) = Some k ->
    getBestAspectRatio w h edits = k.

End AspectRatio.


(** ** The type validation of [analyzeImage] (geminiService.ts) *)

Module Validator.

(** What [JSON.parse] can return. An object keeps its members in the order
    of the text; a repeated key is read at its last occurrence. *)
#[local] Set Warnings "-register-all".
Inductive json :=
| JNull
| JBool (b : bool)
| JNumber (q : Q)
| JString (str : string)
| JArray (items : list json)
| JObject (members : list (string * json)).

(** Exceptions: the built-in ones the validation can meet, and [new Error(msg)]. *)
Inductive exn :=
| TypeError
| SyntaxError
| Error (message : string).

Inductive result (A : Type) :=
| Return (a : A)
| Throw (e : exn).
Arguments Return {A} a.
Arguments Throw {A} e.

(** [try { body } catch (error) { handler }] *)
Definition tryCatch {A : Type} (body : result A) (handler : exn -> result A) : result A :=
  match body with
  | Return a => Return a
  | Throw e => handler e
  end.

(** The outcome of reading a property: [null.k] throws, an absent member
    reads as [undefined]. *)
Inductive property :=
| Undefined
| Value (j : json).

Fixpoint lookupLast (k : string) (members : list (string * json)) : option json :=
  match members with
  | [] => None
  | (k', j) :: rest =>
      match lookupLast k rest with
      | Some j' => Some j'
      | None => if String.eqb k k' then Some j else None
      end
  end.

(** [parsedJson.k], for the member names the validation reads: none of them
    is a property of a boolean, a number, a string or an array. *)
Definition getProp (parsedJson : json) (k : string) : result property :=
  match parsedJson with
  | JNull => Throw TypeError
  | JObject members =>
      match lookupLast k members with
      | Some j => Return (Value j)
      | None => Return Undefined
      end
  | _ => Return Undefined
  end.

(** [typeof x] *)
Definition typeof (x : property) : string :=
  match x with
  | Undefined => "undefined"
  | Value JNull => "object"
  | Value (JBool _) => "boolean"
  | Value (JNumber _) => "number"
  | Value (JString _) => "string"
  | Value (JArray _) => "object"
  | Value (JObject _) => "object"
  end.

(** [Array.isArray(x)] *)
Definition isArray (x : property) : bool :=
  match x with
  | Value (JArray _) => true
  | _ => false
  end.

(** The two variants of the service: the later one also reads
    [projected_rating]. *)
Inductive Variant := Plain | WithProjectedRating.

(** One disjunct of the condition: [typeof parsedJson.k !== ty]. *)
Definition typeofIsNot (parsedJson : json) (k ty : string) : result bool :=
  match getProp parsedJson k with
  | Return x => Return (negb (String.eqb (typeof x) ty))
  | Throw e => Throw e
  end.

(** [!Array.isArray(parsedJson.k)] *)
Definition isNotArray (parsedJson : json) (k : string) : result bool :=
  match getProp parsedJson k with
  | Return x => Return (negb (isArray x))
  | Throw e => Throw e
  end.

(** [a || b] with its short circuit: [b] is evaluated only when [a] is false. *)
Definition orElse (a b : result bool) : result bool :=
  match a with
  | Return true => Return true
  | Return false => b
  | Throw e => Throw e
  end.

Declare Scope validator_scope.
Notation "a '<||>' b" := (orElse a b) (at level 50, left associativity) : validator_scope.
Local Open Scope validator_scope.

(** The condition of the [if] under the comment "Type validation". *)
Definition mismatch (variant : Variant) (parsedJson : json) : result bool :=
  match variant with
  | Plain =>
      typeofIsNot parsedJson "rating" "number" <||>
      typeofIsNot parsedJson "composition" "string" <||>
      typeofIsNot parsedJson "lighting" "string" <||>
      typeofIsNot parsedJson "subject" "string" <||>
      typeofIsNot parsedJson "overall_comment" "string" <||>
      isNotArray parsedJson "suggested_edits"
  | WithProjectedRating =>
      typeofIsNot parsedJson "rating" "number" <||>
      typeofIsNot parsedJson "projected_rating" "number" <||>
      typeofIsNot parsedJson "composition" "string" <||>
      typeofIsNot parsedJson "lighting" "string" <||>
      typeofIsNot parsedJson "subject" "string" <||>
      typeofIsNot parsedJson "overall_comment" "string" <||>
      isNotArray parsedJson "suggested_edits"
  end.

Definition mismatchMessage : string :=
  "API response does not match the expected PhotoAnalysis structure.".

Definition failureMessage : string :=
  "Failed to get analysis from Gemini. Please check the console for more details.".

(** The [if (...) throw new Error(...)] and the [return parsedJson as
    PhotoAnalysis] that follows it: the cast checks nothing, the value
    returned is the parsed one. *)
Definition typeValidation (variant : Variant) (parsedJson : json) : result json :=
  match mismatch variant parsedJson with
  | Return true => Throw (Error mismatchMessage)
  | Return false => Return parsedJson
  | Throw e => Throw e
  end.

(** What the remote call hands to the body of the [try]. *)
Inductive Response :=
| CallRejected (e : exn)      (* [generateContent] rejects with [e] *)
| NoText                      (* [response.text] is undefined: [.trim()] throws *)
| Unparsable                  (* [JSON.parse] throws *)
| Parsed (parsedJson : json).

(** The [try] block of [analyzeImage], from the remote call on. *)
Definition tryBody (variant : Variant) (r : Response) : result json :=
  match r with
  | CallRejected e => Throw e
  | NoText => Throw TypeError
  | Unparsable => Throw SyntaxError
  | Parsed parsedJson => typeValidation variant parsedJson
  end.

(** [analyzeImage] once the remote call has settled: whatever the [try]
    throws is logged and replaced by one fixed error. *)
Definition analyzeImage (variant : Variant) (apiKey : bool) (r : Response) : result json :=
  if negb apiKey then Throw (Error "API_KEY environment variable not set")
  else tryCatch (tryBody variant r) (fun _ => Throw (Error failureMessage)).

(** The validator as the rest of the program sees it: the parsed structure
    in, the structure or the error of [analyzeImage] out. *)
Definition validate (variant : Variant) (raw : json) : result json :=
  analyzeImage variant true (Parsed raw).

(** The shape checks in the order of the source, each with the member it
    reads, and whether a property passes it. *)
Inductive Check := IsNumber | IsString | IsArray.

Definition checks (variant : Variant) : list (string * Check) :=
  match variant with
  | Plain =>
      [ ("rating", IsNumber); ("composition", IsString); ("lighting", IsString);
        ("subject", IsString); ("overall_comment", IsString);
        ("suggested_edits", IsArray) ]
  | WithProjectedRating =>
      [ ("rating", IsNumber); ("projected_rating", IsNumber);
        ("composition", IsString); ("lighting", IsString);
        ("subject", IsString); ("overall_comment", IsString);
        ("suggested_edits", IsArray) ]
  end.

Definition passes (c : Check) (x : property) : bool :=
  match c, x with
  | IsNumber, Value (JNumber _) => true
  | IsString, Value (JString _) => true
  | IsArray, Value (JArray _) => true
  | _, _ => false
  end.

(** Whether [raw] satisfies the check on member [k]; reading a member of
    [null] satisfies none. *)
Definition satisfies (raw : json) (kc : string * Check) : bool :=
  match getProp raw (fst kc) with
  | Return x => passes (snd kc) x
  | Throw _ => false
  end.

(** The member of the first check, in order, that [raw] violates. *)
Definition firstViolation (variant : Variant) (raw : json) : option string :=
  option_map fst (find (fun kc => negb (satisfies raw kc)) (checks variant)).

(** *** Vocabulary of the properties, and sample structures *)

(** A structure of the shape the validation asks for: [rating] (and
    [projected_rating], in that variant) a number, the four commentaries
    strings, [suggested_edits] an array.  Nothing is asked of the numbers
    or of the array. *)
Definition wellShaped (variant : Variant) (raw : json) : Prop :=
  satisfies raw ("rating", IsNumber) = true /\
  (variant = WithProjectedRating ->
   satisfies raw ("projected_rating", IsNumber) = true) /\
  satisfies raw ("composition", IsString) = true /\
  satisfies raw ("lighting", IsString) = true /\
  satisfies raw ("subject", IsString) = true /\
  satisfies raw ("overall_comment", IsString) = true /\
  satisfies raw ("suggested_edits", IsArray) = true.

(** A critique with the rating as text. *)
Definition ratingAsText : json :=
  JObject [ ("rating", JString "7"); ("projected_rating", JNumber 8);
            ("composition", JString "c"); ("lighting", JString "l");
            ("subject", JString "s"); ("overall_comment", JString "o");
            ("suggested_edits", JArray []) ].

(** A critique without [suggested_edits]. *)
Definition withoutEdits : json :=
  JObject [ ("rating", JNumber 7); ("projected_rating", JNumber 8);
            ("composition", JString "c"); ("lighting", JString "l");
            ("subject", JString "s"); ("overall_comment", JString "o") ].

Definition anEdit : json :=
  JObject [ ("edit", JString "Increase contrast by 15%");
            ("reason", JString "To separate the subject") ].

(** A minimal well-formed critique with three edits. *)
Definition threeEdits : json :=
  JObject [ ("rating", JNumber 7); ("projected_rating", JNumber 8);
            ("composition", JString "c"); ("lighting", JString "l");
            ("subject", JString "s"); ("overall_comment", JString "o");
            ("suggested_edits", JArray [anEdit; anEdit; anEdit]) ].

(** A critique with no edit at all, a rating outside 1..10 and a projected
    rating below the rating. *)
Definition outOfRange : json :=
  JObject [ ("rating", JNumber 42); ("projected_rating", JNumber 1);
            ("composition", JString ""); ("lighting", JString "");
            ("subject", JString ""); ("overall_comment", JString "");
            ("suggested_edits", JArray []) ].

(** C6 as stated: a structure that violates a check is refused with an
    error whose message names the member of the first violated check. *)
Definition NamesOffendingField : Prop :=
  forall (variant : Variant) (raw : json) (field : string),
    firstViolation variant raw = Some field ->
    exists message,
      validate variant raw = Throw (Error message) /\
      Js.includes message field = true.

End Validator.

(** ** The workflow: the handlers of [App.tsx] *)

(** ** [generateImprovedImage] (geminiService.ts) *)

Module ImproveService.
Import Validator.

(** What [e.edit.toLowerCase()] needs of an item of [suggested_edits]: an
    object whose [edit] is a string; on anything else the call throws a
    [TypeError].  The service reads nothing but [edit]. *)
Definition suggestedEdit (item : json) : result SuggestedEdit :=
  match item with
  | JObject members =>
      match lookupLast "edit" members with
      | Some (JString text) =>
          Return {| edit := text;
                    reason := match lookupLast "reason" members with
                              | Some (JString why) => why
                              | _ => ""
                              end |}
      | _ => Throw TypeError
      end
  | _ => Throw TypeError
  end.

(** [items.map(f)] for an [f] that may throw: the first exception ends the
    traversal. *)
Fixpoint mapM {A B : Type} (f : A -> result B) (items : list A) : result (list B) :=
  match items with
  | [] => Return []
  | item :: rest =>
      match f item with
      | Throw e => Throw e
      | Return b =>
          match mapM f rest with
          | Throw e => Throw e
          | Return bs => Return (b :: bs)
          end
      end
  end.

(** [analysis.suggested_edits], as something [.map] can be called on. *)
Definition suggestedEditsOf (analysis : json) : result (list json) :=
  match getProp analysis "suggested_edits" with
  | Return (Value (JArray items)) => Return items
  | _ => Throw TypeError
  end.

(** [getBestAspectRatio(originalWidth, originalHeight,
    analysis.suggested_edits)], evaluated before the [try]. *)
Definition targetAspectRatio (analysis : json) (w h : Q) : result string :=
  match suggestedEditsOf analysis with
  | Throw e => Throw e
  | Return items =>
      match mapM suggestedEdit items with
      | Throw e => Throw e
      | Return edits => Return (AspectRatio.getBestAspectRatio w h edits)
      end
  end.

(** The part of the remote response the service reads. *)
Record Part := { inlineData : option string; text : option string }.
Record Content := { parts : option (list Part) }.
Record Candidate := { content : option Content }.
Record GenerateContentResponse := { candidates : option (list Candidate) }.

(** [response.candidates?.[0]?.content?.parts || []] *)
Definition responseParts (response : GenerateContentResponse) : list Part :=
  match candidates response with
  | Some (first :: _) =>
      match content first with
      | Some c => match parts c with Some ps => ps | None => [] end
      | None => []
      end
  | _ => []
  end.

(** The [for] loop: the data of the first part that has [inlineData]. *)
Fixpoint firstInlineData (ps : list Part) : option string :=
  match ps with
  | [] => None
  | part :: rest =>
      match inlineData part with
      | Some data => Some data
      | None => firstInlineData rest
      end
  end.

(** How the remote call settles. *)
Inductive Remote :=
| Rejects (e : exn)
| Responds (response : GenerateContentResponse).

Definition noImageMessage : string := "No image data found in response".

Definition improveFailureMessage : string := "Failed to generate improved image.".

Definition apiKeyMessage : string := "API_KEY environment variable not set".

Definition generateImprovedImage (apiKey : bool) (analysis : json) (w h : Q)
    (remote : Remote) : result string :=
  if negb apiKey then Throw (Error apiKeyMessage)
  else
    match targetAspectRatio analysis w h with
    | Throw e => Throw e
    | Return _ =>
        tryCatch
          (match remote with
           | Rejects e => Throw e
           | Responds response =>
               match firstInlineData (responseParts response) with
               | Some data => Return data
               | None => Throw (Error noImageMessage)
               end
           end)
          (fun _ => Throw (Error improveFailureMessage))
    end.

(** Every item of the array can be read as a suggested edit. *)
Definition editsReadable (analysis : json) : Prop :=
  exists items edits,
    suggestedEditsOf analysis = Return items /\
    mapM suggestedEdit items = Return edits.

End ImproveService.

Module App.

(** A [File]: its name, its MIME type and its bytes, the bytes written as
    the base64 text that [FileReader.readAsDataURL] produces for them. *)
Record File := { file_name : string; file_type : string; file_data : string }.

(** A [Blob]: MIME type and bytes (as base64 text). *)
Record Blob := { blob_type : string; blob_data : string }.

(** The component's state, one field per [useState] of [App] that the
    workflow handlers touch. *)
Record State := {
  selectedFile : option File;
  previewUrl : option string;
  analysisResult : option PhotoAnalysis;
  isLoadingAnalysis : bool;
  analysisError : option string;
  isEditing : bool;
  editedImage : option string;
  editError : option string
}.

Definition initial : State :=
  {| selectedFile := None; previewUrl := None; analysisResult := None;
     isLoadingAnalysis := false; analysisError := None;
     isEditing := false; editedImage := None; editError := None |}.

(** The state setters. *)
Definition setSelectedFile (x : option File) (st : State) : State :=
  {| selectedFile := x; previewUrl := previewUrl st;
     analysisResult := analysisResult st; isLoadingAnalysis := isLoadingAnalysis st;
     analysisError := analysisError st; isEditing := isEditing st;
     editedImage := editedImage st; editError := editError st |}.
Definition setPreviewUrl (x : option string) (st : State) : State :=
  {| selectedFile := selectedFile st; previewUrl := x;
     analysisResult := analysisResult st; isLoadingAnalysis := isLoadingAnalysis st;
     analysisError := analysisError st; isEditing := isEditing st;
     editedImage := editedImage st; editError := editError st |}.
Definition setAnalysisResult (x : option PhotoAnalysis) (st : State) : State :=
  {| selectedFile := selectedFile st; previewUrl := previewUrl st;
     analysisResult := x; isLoadingAnalysis := isLoadingAnalysis st;
     analysisError := analysisError st; isEditing := isEditing st;
     editedImage := editedImage st; editError := editError st |}.
Definition setIsLoadingAnalysis (x : bool) (st : State) : State :=
  {| selectedFile := selectedFile st; previewUrl := previewUrl st;
     analysisResult := analysisResult st; isLoadingAnalysis := x;
     analysisError := analysisError st; isEditing := isEditing st;
     editedImage := editedImage st; editError := editError st |}.
Definition setAnalysisError (x : option string) (st : State) : State :=
  {| selectedFile := selectedFile st; previewUrl := previewUrl st;
     analysisResult := analysisResult st; isLoadingAnalysis := isLoadingAnalysis st;
     analysisError := x; isEditing := isEditing st;
     editedImage := editedImage st; editError := editError st |}.
Definition setIsEditing (x : bool) (st : State) : State :=
  {| selectedFile := selectedFile st; previewUrl := previewUrl st;
     analysisResult := analysisResult st; isLoadingAnalysis := isLoadingAnalysis st;
     analysisError := analysisError st; isEditing := x;
     editedImage := editedImage st; editError := editError st |}.
Definition setEditedImage (x : option string) (st : State) : State :=
  {| selectedFile := selectedFile st; previewUrl := previewUrl st;
     analysisResult := analysisResult st; isLoadingAnalysis := isLoadingAnalysis st;
     analysisError := analysisError st; isEditing := isEditing st;
     editedImage := x; editError := editError st |}.
Definition setEditError (x : option string) (st : State) : State :=
  {| selectedFile := selectedFile st; previewUrl := previewUrl st;
     analysisResult := analysisResult st; isLoadingAnalysis := isLoadingAnalysis st;
     analysisError := analysisError st; isEditing := isEditing st;
     editedImage := editedImage st; editError := x |}.

(** Statements of a handler run in sequence: [st |> f |> g]. *)
Declare Scope app_scope.
Notation "st '|>' f" := (f st) (at level 45, left associativity, only parsing) : app_scope.
Local Open Scope app_scope.

(** How a promise settles: fulfilled with a value, or rejected with an
    [Error] carrying a message, or with something that is not an [Error]
    (the [ProgressEvent] of [reader.onerror]). *)
Inductive Rejection := ErrorInstance (message : string) | NotAnError.

Inductive Outcome (A : Type) :=
| Fulfilled (a : A)
| Rejected (r : Rejection).
Arguments Fulfilled {A} a.
Arguments Rejected {A} r.

(** The rest of an [async] handler, suspended at an [await].  Between the
    [await]s that one task stands for, the handler touches no state.
    - [AnalyzeTask file]: [handleAnalyzeClick] awaiting [fileToBase64(file)]
      and then [analyzeImage] on what it read;
    - [EditTask file analysis]: [handleEditClick] awaiting [fileToBase64],
      the dimensions of the image and [generateImprovedImage];
    - [FetchTask src]: [handleReanalyzeEdited] awaiting [fetch(src)] and
      [res.blob()];
    - [ReanalyzeTask file]: [handleReanalyzeEdited] awaiting
      [fileToBase64(file)] and [analyzeImage]. *)
Inductive Task :=
| AnalyzeTask (file : File)
| EditTask (file : File) (analysis : PhotoAnalysis)
| FetchTask (newImageSrc : string)
| ReanalyzeTask (file : File).

(** The arguments [fileToBase64(file)] hands on to [analyzeImage]:
    [{ mimeType: file.type, data: base64String }]. *)
Definition fileToBase64 (file : File) : string * string :=
  (file_type file, file_data file).

(** The component together with the handlers still in flight. *)
Record World := { app : State; pending : list Task }.

Definition start : World := {| app := initial; pending := [] |}.

Definition onApp (f : State -> State) (w : World) : World :=
  {| app := f (app w); pending := pending w |}.

Definition spawn (t : Task) (w : World) : World :=
  {| app := app w; pending := pending w ++ [t] |}.

(** Removes the task at position [i]. *)
Fixpoint removeAt (i : nat) (l : list Task) : list Task :=
  match l, i with
  | [], _ => []
  | _ :: rest, O => rest
  | x :: rest, S j => x :: removeAt j rest
  end.

(** Replaces the task at position [i]. *)
Fixpoint replaceAt (i : nat) (t : Task) (l : list Task) : list Task :=
  match l, i with
  | [], _ => []
  | _ :: rest, O => t :: rest
  | x :: rest, S j => x :: replaceAt j t rest
  end.

Definition finish (i : nat) (w : World) : World :=
  {| app := app w; pending := removeAt i (pending w) |}.

Definition continueWith (i : nat) (t : Task) (w : World) : World :=
  {| app := app w; pending := replaceAt i t (pending w) |}.

(** *** [handleImageSelect]
    [sel] is the file and the object URL the browser mints for it. *)
Definition handleImageSelect (sel : option (File * string)) (w : World) : World :=
  w |> onApp (setAnalysisResult None)
    |> onApp (setAnalysisError None)
    |> onApp (setEditedImage None)
    |> onApp (setEditError None)
    |> match sel with
       | Some (file, url) =>
           fun w => w |> onApp (setSelectedFile (Some file))
                      |> onApp (setPreviewUrl (Some url))
       | None =>
           fun w => w |> onApp (setSelectedFile None)
                      |> onApp (setPreviewUrl None)
       end.

(** *** [handleAnalyzeClick] *)
Definition handleAnalyzeClick (w : World) : World :=
  match selectedFile (app w) with
  | None => w |> onApp (setAnalysisError (Some "Please select an image file first."))
  | Some file =>
      w |> onApp (setIsLoadingAnalysis true)
        |> onApp (setAnalysisError None)
        |> onApp (setAnalysisResult None)
        |> onApp (setEditedImage None)
        |> spawn (AnalyzeTask file)
  end.

(** The [try] / [catch] / [finally] of [handleAnalyzeClick] once its
    awaits have settled. *)
Definition analyzeSettled (o : Outcome PhotoAnalysis) (w : World) : World :=
  w |> match o with
       | Fulfilled result => onApp (setAnalysisResult (Some result))
       | Rejected (ErrorInstance message) => onApp (setAnalysisError (Some message))
       | Rejected NotAnError =>
           onApp (setAnalysisError (Some "An unknown error occurred during analysis."))
       end
    |> onApp (setIsLoadingAnalysis false).

(** *** [handleEditClick] *)
Definition handleEditClick (w : World) : World :=
  match selectedFile (app w), analysisResult (app w) with
  | Some file, Some analysis =>
      w |> onApp (setIsEditing true)
        |> onApp (setEditError None)
        |> spawn (EditTask file analysis)
  | _, _ => w
  end.

Definition editSettled (o : Outcome string) (w : World) : World :=
  w |> match o with
       | Fulfilled improvedImageBase64 =>
           onApp (setEditedImage (Some ("data:image/png;base64," ++ improvedImageBase64)))
       | Rejected (ErrorInstance message) => onApp (setEditError (Some message))
       | Rejected NotAnError =>
           onApp (setEditError (Some "Failed to generate edited image."))
       end
    |> onApp (setIsEditing false).

(** *** [handleReanalyzeEdited] *)
Definition handleReanalyzeEdited (w : World) : World :=
  match editedImage (app w) with
  | None => w
  | Some newImageSrc =>
      w |> onApp (setIsLoadingAnalysis true)
        |> onApp (setAnalysisResult None)
        |> onApp (setAnalysisError None)
        |> onApp (setEditedImage None)
        |> onApp (setIsEditing false)
        |> onApp (setEditError None)
        |> spawn (FetchTask newImageSrc)
  end.

(** [p] removed from the front of [str], when it is there. *)
Fixpoint stripPrefix (p str : string) : option string :=
  match p, str with
  | EmptyString, _ => Some str
  | String a p', String b str' =>
      if Ascii.eqb a b then stripPrefix p' str' else None
  | String _ _, EmptyString => None
  end.

(** [str] cut at the first occurrence of [sep]. *)
Fixpoint splitOnce (sep str : string) : option (string * string) :=
  match stripPrefix sep str with
  | Some rest => Some (EmptyString, rest)
  | None =>
      match str with
      | EmptyString => None
      | String c t =>
          match splitOnce sep t with
          | Some (before, rest) => Some (String c before, rest)
          | None => None
          end
      end
  end.

(** [fetch(url)] followed by [res.blob()] on a base64 [data:] URL: the blob
    has the MIME type and the bytes the URL spells out.  Any other URL is
    none the application makes. *)
Definition fetchBlob (url : string) : option Blob :=
  match stripPrefix "data:" url with
  | Some rest =>
      match splitOnce ";base64," rest with
      | Some (mime, payload) => Some {| blob_type := mime; blob_data := payload |}
      | None => None
      end
  | None => None
  end.

(** [new File([blob], "improved-photo.png", { type: blob.type })] *)
Definition improvedPhoto (blob : Blob) : File :=
  {| file_name := "improved-photo.png";
     file_type := blob_type blob;
     file_data := blob_data blob |}.

Definition reanalyzeFailed (w : World) : World :=
  w |> onApp (setAnalysisError (Some "Failed to re-analyze the improved image."))
    |> onApp (setIsLoadingAnalysis false).

(** The first half of the [try] of [handleReanalyzeEdited]: once the blob
    is there, the file made of it becomes the selected one and the handler
    goes on to the analysis; a rejected fetch lands in the [catch]. *)
Definition fetchSettled (i : nat) (newImageSrc : string) (o : Outcome unit)
    (w : World) : World :=
  match o, fetchBlob newImageSrc with
  | Fulfilled _, Some blob =>
      let file := improvedPhoto blob in
      w |> onApp (setSelectedFile (Some file))
        |> onApp (setPreviewUrl (Some newImageSrc))
        |> continueWith i (ReanalyzeTask file)
  | _, _ => w |> reanalyzeFailed |> finish i
  end.

(** The second half: the analysis of the new file has settled. *)
Definition reanalyzeSettled (o : Outcome PhotoAnalysis) (w : World) : World :=
  match o with
  | Fulfilled result =>
      w |> onApp (setAnalysisResult (Some result))
        |> onApp (setIsLoadingAnalysis false)
  | Rejected _ => w |> reanalyzeFailed
  end.

(** *** Events *)
Inductive Event :=
| ImageSelect (sel : option (File * string))
| AnalyzeClick
| EditClick
| ReanalyzeEditedClick
| CloseClick                                   (* [() => setEditedImage(null)] *)
| AnalysisSettles (i : nat) (o : Outcome PhotoAnalysis)
| EditSettles (i : nat) (o : Outcome string)
| FetchSettles (i : nat) (o : Outcome unit).

(** One turn of the event loop.  A settlement addressed to a position that
    holds no task of its kind is none the runtime delivers: nothing moves. *)
Definition step (w : World) (e : Event) : World :=
  match e with
  | ImageSelect sel => handleImageSelect sel w
  | AnalyzeClick => handleAnalyzeClick w
  | EditClick => handleEditClick w
  | ReanalyzeEditedClick => handleReanalyzeEdited w
  | CloseClick => w |> onApp (setEditedImage None)
  | AnalysisSettles i o =>
      match nth_error (pending w) i with
      | Some (AnalyzeTask _) => w |> analyzeSettled o |> finish i
      | Some (ReanalyzeTask _) => w |> reanalyzeSettled o |> finish i
      | _ => w
      end
  | EditSettles i o =>
      match nth_error (pending w) i with
      | Some (EditTask _ _) => w |> editSettled o |> finish i
      | _ => w
      end
  | FetchSettles i o =>
      match nth_error (pending w) i with
      | Some (FetchTask src) => w |> fetchSettled i src o
      | _ => w
      end
  end.

Definition run (w : World) (es : list Event) : World := fold_left step es w.

(** *** What the screen shows
    The states of the workflow, read off the flags in the order the
    render tests them: the spinner of the analysis, the analysis error,
    then the analysis with its editing section. *)
Inductive Phase :=
| Idle | Analyzing | AnalysisError | Ready | Editing | EditError | EditReady.

Definition isSome {A : Type} (o : option A) : bool :=
  match o with Some _ => true | None => false end.

Definition phase (st : State) : Phase :=
  if isLoadingAnalysis st then Analyzing
  else if isSome (analysisError st) then AnalysisError
  else if negb (isSome (analysisResult st)) then Idle
  else if isEditing st then Editing
  else if isSome (editedImage st) then EditReady
  else if isSome (editError st) then EditError
  else Ready.

(** Which controls the render offers in a state: the upload is always
    there; [Analyze] carries
    [disabled={!selectedFile || isLoadingAnalysis || isEditing}]; the
    editing section is rendered under
    [!isLoadingAnalysis && !analysisError && analysisResult], its button
    under [!isEditing && !editedImage], the two buttons of the comparison
    under [editedImage]. *)
Definition editingSection (st : State) : bool :=
  negb (isLoadingAnalysis st) && negb (isSome (analysisError st))
  && isSome (analysisResult st).

Definition offered (st : State) (e : Event) : bool :=
  match e with
  | ImageSelect _ => true
  | AnalyzeClick =>
      negb (negb (isSome (selectedFile st)) || isLoadingAnalysis st || isEditing st)
  | EditClick =>
      editingSection st && negb (isEditing st) && negb (isSome (editedImage st))
  | ReanalyzeEditedClick | CloseClick =>
      editingSection st && isSome (editedImage st)
  | AnalysisSettles _ _ | EditSettles _ _ | FetchSettles _ _ => true
  end.

(** A run in which every click is on a control that is on the screen. *)
Fixpoint offeredAll (w : World) (es : list Event) : bool :=
  match es with
  | [] => true
  | e :: rest => offered (app w) e && offeredAll (step w e) rest
  end.

(** *** Vocabulary of the properties, and sample runs *)

(** The string [handleEditClick] stores for an edited image. *)
Definition pngDataUrl (improvedImageBase64 : string) : string :=
  ("data:image/png;base64," ++ improvedImageBase64)%string.

(** The edited image, when there is one, is always a PNG data URL: the
    only place that sets it to a string is the success branch of
    [handleEditClick]. *)
Definition editedIsDataUrl (st : State) : Prop :=
  match editedImage st with
  | None => True
  | Some src => exists b, src = pngDataUrl b
  end.

(** The file [handleReanalyzeEdited] makes of the edited image. *)
Definition editedAsFile (improvedImageBase64 : string) : File :=
  {| file_name := "improved-photo.png";
     file_type := "image/png";
     file_data := improvedImageBase64 |}.

(** The state right after the click on [Rate This Edit]. *)
Definition reanalyzing (st : State) : State :=
  {| selectedFile := selectedFile st; previewUrl := previewUrl st;
     analysisResult := None; isLoadingAnalysis := true;
     analysisError := None; isEditing := false;
     editedImage := None; editError := None |}.

(** The state once the edited image has been made the source. *)
Definition sourceReplaced (b : string) : State :=
  {| selectedFile := Some (editedAsFile b); previewUrl := Some (pngDataUrl b);
     analysisResult := None; isLoadingAnalysis := true;
     analysisError := None; isEditing := false;
     editedImage := None; editError := None |}.

Definition photoA : File :=
  {| file_name := "a.jpg"; file_type := "image/jpeg"; file_data := "QUFB" |}.

Definition photoB : File :=
  {| file_name := "b.jpg"; file_type := "image/jpeg"; file_data := "QkJC" |}.

Definition critique : PhotoAnalysis :=
  {| rating := 6; projected_rating := 7.5;
     composition := "c"; lighting := "l"; subject := "s"; overall_comment := "o";
     suggested_edits :=
       [ {| edit := "Increase contrast by 15%"; reason := "r1" |};
         {| edit := "Warm white balance to 5600K"; reason := "r2" |};
         {| edit := "Sharpen high-frequency details"; reason := "r3" |} ] |}.

(** Select a photo, analyse it, and while the analysis is in flight select
    another photo; then the analysis of the first one arrives. *)
Definition selectWhileAnalyzing : list Event :=
  [ ImageSelect (Some (photoA, "blob:a")); AnalyzeClick;
    ImageSelect (Some (photoB, "blob:b")) ].

Definition staleArrival : list Event :=
  (selectWhileAnalyzing ++ [ AnalysisSettles 0 (Fulfilled critique) ])%list.

(** Select, analyse, edit: the comparison is on the screen. *)
Definition untilEditReady : list Event :=
  [ ImageSelect (Some (photoA, "blob:a")); AnalyzeClick;
    AnalysisSettles 0 (Fulfilled critique);
    EditClick; EditSettles 0 (Fulfilled "SU1Q") ].

(** C1 as stated: a new image selected while an analysis is outstanding
    puts the controller in [Idle] at once, and when the outstanding
    analysis later succeeds no result is installed and the controller is
    still in [Idle]. *)
Definition StaleResultDiscarded : Prop :=
  forall (w : World) (i : nat) (file newFile : File) (url : string)
         (result : PhotoAnalysis),
    isLoadingAnalysis (app w) = true ->
    nth_error (pending w) i = Some (AnalyzeTask file) ->
    phase (app (step w (ImageSelect (Some (newFile, url))))) = Idle /\
    analysisResult
      (app (run w [ImageSelect (Some (newFile, url));
                   AnalysisSettles i (Fulfilled result)])) = None /\
    phase
      (app (run w [ImageSelect (Some (newFile, url));
                   AnalysisSettles i (Fulfilled result)])) = Idle.

(** *** Reading a file: [reader.result.split(',')[1]]
    [None] stands for [undefined]. *)
Definition base64String (readerResult : string) : option string :=
  nth_error (Js.split "," readerResult) 1.

(** No character of [str] is a comma. *)
Fixpoint commaFree (str : string) : bool :=
  match str with
  | EmptyString => true
  | String c t => negb (Ascii.eqb c ",") && commaFree t
  end.

(** The message the [catch] of [handleAnalyzeClick] shows. *)
Definition analysisMessage (r : Rejection) : string :=
  match r with
  | ErrorInstance message => message
  | NotAnError => "An unknown error occurred during analysis."
  end.

(** The message the [catch] of [handleEditClick] shows. *)
Definition editMessage (r : Rejection) : string :=
  match r with
  | ErrorInstance message => message
  | NotAnError => "Failed to generate edited image."
  end.

(** [payload] is the image a successful edit request of the run [es]
    returned. *)
Definition returnedByEdit (es : list Event) (payload : string) : Prop :=
  exists i, In (EditSettles i (Fulfilled payload)) es.

(** The edited image, when there is one, is the PNG data URL of an image
    returned by an edit of the run. *)
Definition editedFromEdit (es : list Event) (st : State) : Prop :=
  match editedImage st with
  | Some src =>
      exists payload, src = pngDataUrl payload /\ returnedByEdit es payload
  | None => True
  end.

(** The source image and its preview go together. *)
Definition paired (st : State) : Prop :=
  isSome (selectedFile st) = isSome (previewUrl st).

(** *** Requests in flight *)
Definition isAnalysisTask (t : Task) : bool :=
  match t with
  | AnalyzeTask _ | FetchTask _ | ReanalyzeTask _ => true
  | EditTask _ _ => false
  end.

Definition isEditTask (t : Task) : bool := negb (isAnalysisTask t).

Definition analysesInFlight (w : World) : nat :=
  List.length (filter isAnalysisTask (pending w)).

Definition editsInFlight (w : World) : nat :=
  List.length (filter isEditTask (pending w)).

Definition flag (b : bool) : nat := if b then 1%nat else 0%nat.

(** The busy flags count the handlers in flight, and the two kinds of
    request exclude each other. *)
Definition flagsExact (w : World) : Prop :=
  analysesInFlight w = flag (isLoadingAnalysis (app w)) /\
  editsInFlight w = flag (isEditing (app w)) /\
  (isLoadingAnalysis (app w) = true -> isEditing (app w) = false) /\
  (isEditing (app w) = true -> editedImage (app w) = None) /\
  (isLoadingAnalysis (app w) = true -> analysisResult (app w) = None).

End App.

(** ** The comparison viewer: [components/ComparisonView.tsx] *)

Module ComparisonView.

Record Point := { x : Q; y : Q }.

(** The part of [getBoundingClientRect()] the slider reads. *)
Record Rect := { left : Q; width : Q }.

Record State := {
  isResizing : bool;
  sliderPosition : Js.number;
  scale : Q;
  pan : Point;
  isPanning : bool;
  panStartRef : option Point
}.

Definition initial : State :=
  {| isResizing := false; sliderPosition := Js.Finite 50; scale := 1;
     pan := {| x := 0; y := 0 |}; isPanning := false; panStartRef := None |}.

Definition setIsResizing (b : bool) (st : State) : State :=
  {| isResizing := b; sliderPosition := sliderPosition st; scale := scale st;
     pan := pan st; isPanning := isPanning st; panStartRef := panStartRef st |}.
Definition setSliderPosition (p : Js.number) (st : State) : State :=
  {| isResizing := isResizing st; sliderPosition := p; scale := scale st;
     pan := pan st; isPanning := isPanning st; panStartRef := panStartRef st |}.
Definition setScale (s : Q) (st : State) : State :=
  {| isResizing := isResizing st; sliderPosition := sliderPosition st; scale := s;
     pan := pan st; isPanning := isPanning st; panStartRef := panStartRef st |}.
Definition setPan (p : Point) (st : State) : State :=
  {| isResizing := isResizing st; sliderPosition := sliderPosition st; scale := scale st;
     pan := p; isPanning := isPanning st; panStartRef := panStartRef st |}.
Definition setIsPanning (b : bool) (st : State) : State :=
  {| isResizing := isResizing st; sliderPosition := sliderPosition st; scale := scale st;
     pan := pan st; isPanning := b; panStartRef := panStartRef st |}.
Definition setPanStartRef (r : option Point) (st : State) : State :=
  {| isResizing := isResizing st; sliderPosition := sliderPosition st; scale := scale st;
     pan := pan st; isPanning := isPanning st; panStartRef := r |}.

(** *** Slider *)

(** The position [updateSliderPosition] computes and stores:
    [Math.max(0, Math.min(100, ((clientX - left) / width) * 100))], the
    division being the one of the source: by a width of zero it yields an
    infinity, or NaN when the pointer is on the left edge. *)
Definition newPosition (rect : Rect) (clientX : Q) : Js.number :=
  Js.mathMax 0
    (Js.mathMin 100
       (Js.times (Js.divide (clientX - left rect) (width rect)) 100)).

(** [containerRef.current] is [rect]'s element, or [null] ([None]). *)
Definition updateSliderPosition (container : option Rect) (clientX : Q)
    (st : State) : State :=
  match container with
  | None => st
  | Some rect => setSliderPosition (newPosition rect clientX) st
  end.

Definition startResizing (container : option Rect) (p : Point) (st : State) : State :=
  updateSliderPosition container (x p) (setIsResizing true st).

Definition stopResizing (st : State) : State := setIsResizing false st.

(** *** Pan *)

Definition startPanning (p : Point) (st : State) : State :=
  setPanStartRef
    (Some {| x := x p - x (pan st); y := y p - y (pan st) |})
    (setIsPanning true st).

Definition stopPanning (st : State) : State :=
  setPanStartRef None (setIsPanning false st).

(** *** The move and release handlers on [window] *)

Definition handleMove (container : option Rect) (p : Point) (st : State) : State :=
  if isResizing st then updateSliderPosition container (x p) st
  else if isPanning st then
    match panStartRef st with
    | Some start => setPan {| x := x p - x start; y := y p - y start |} st
    | None => st
    end
  else st.

Definition handleUp (st : State) : State :=
  let st1 := if isResizing st then stopResizing st else st in
  if isPanning st then stopPanning st1 else st1.

(** *** Zoom *)

Definition handleZoomIn (st : State) : State :=
  setScale (Qmin (scale st * 1.5) 8) st.

Definition handleZoomOut (st : State) : State :=
  let newScale := scale st / 1.5 in
  if Js.ltb newScale 1.1
  then setScale 1 (setPan {| x := 0; y := 0 |} st)
  else setScale newScale st.

Definition handleReset (st : State) : State :=
  setSliderPosition (Js.Finite 50) (setPan {| x := 0; y := 0 |} (setScale 1 st)).

(** [scale > 1] *)
Definition handleContainerMouseDown (container : option Rect) (p : Point)
    (st : State) : State :=
  if Js.ltb 1 (scale st) then startPanning p st
  else startResizing container p st.

(** *** Events
    A pointer event carries the pointer and what [containerRef.current]
    measures when the handler reads it. *)
Inductive Event :=
| ContainerDown (container : option Rect) (p : Point)
| HandleDown (container : option Rect) (p : Point)
| Move (container : option Rect) (p : Point)
| Up
| ZoomIn
| ZoomOut
| Reset.

Definition step (st : State) (e : Event) : State :=
  match e with
  | ContainerDown container p => handleContainerMouseDown container p st
  | HandleDown container p => startResizing container p st
  | Move container p => handleMove container p st
  | Up => handleUp st
  | ZoomIn => handleZoomIn st
  | ZoomOut => handleZoomOut st
  | Reset => handleReset st
  end.

Definition run (st : State) (es : list Event) : State := fold_left step es st.

(** The one measurement at which the source divides zero by zero: a
    container of width zero with the pointer on its left edge. *)
Definition degenerate (rect : Rect) (clientX : Q) : Prop :=
  width rect == 0 /\ clientX == left rect.


(** *** Vocabulary of the properties, and sample states *)


(** The position as a rational, for a container whose width is not zero:
    there [newPosition rect clientX] is [Js.Finite (newPos rect clientX)]. *)
Definition newPos (rect : Rect) (clientX : Q) : Q :=
  Qmax 0 (Qmin 100 (((clientX - left rect) / width rect) * 100)).




Definition scaleInRange (st : State) : Prop := 1 <= scale st <= 8.

Definition origin : Point := {| x := 0; y := 0 |}.

(** A viewer zoomed to 1.05 and panned away from the origin. *)
Definition nearUnity : State :=
  setPan {| x := 3; y := 4 |} (setScale 1.05 initial).

(** A container 400 wide whose left edge is at 100. *)
Definition box : Rect := {| left := 100; width := 400 |}.

(** Pointer moves, each with what the container measures at that time. *)
Definition moves (cps : list (option Rect * Point)) : list Event :=
  map (fun cp => Move (fst cp) (snd cp)) cps.

(** The pan flag is set exactly when a pan anchor is held. *)
Definition anchored (st : State) : Prop :=
  isPanning st = match panStartRef st with Some _ => true | None => false end.

(** The view fits: scale exactly 1 and no pan. *)
Definition fitted (st : State) : Prop := scale st = 1 /\ pan st = origin.

End ComparisonView.

(** * Properties *)

(** ** The upload control: [components/ImageUpload.tsx] *)

Module ImageUpload.

(** [handleDrop], with [onImageSelect] the handler of [App]: the first
    dropped file, if there is one and its type starts with [image/], is
    selected; [url] is the object URL the browser mints for it. *)
Definition handleDrop (dropped : option App.File) (url : string)
    (w : App.World) : App.World :=
  match dropped with
  | Some file =>
      if Js.startsWith (App.file_type file) "image/"
      then App.handleImageSelect (Some (file, url)) w
      else w
  | None => w
  end.

(** [handleFileChange]: whatever the dialog returns is handed on, [null]
    when it returns no file. *)
Definition handleFileChange (picked : option App.File) (url : string)
    (w : App.World) : App.World :=
  match picked with
  | Some file => App.handleImageSelect (Some (file, url)) w
  | None => App.handleImageSelect None w
  end.

End ImageUpload.

(** ** The stars of the rating: [components/AnalysisDisplay.tsx] *)

Module AnalysisDisplay.

Definition totalStars : Q := 10.

(** [Math.max(0, Math.min(totalStars, Math.round(rating)))] *)
Definition clampedRating (rating : Q) : Q :=
  Qmax 0 (Qmin totalStars (inject_Z (Js.round rating))).

(** [Array.from({ length: totalStars }, (_, i) => i < clampedRating)]:
    which of the ten stars are filled. *)
Definition stars (rating : Q) : list bool :=
  map (fun i => Js.ltb (inject_Z (Z.of_nat i)) (clampedRating rating))
      (seq 0 10).

End AnalysisDisplay.

Module JsFacts.
Local Open Scope list_scope.

Lemma ltb_lt (a b : Q) : Js.ltb a b = true <-> a < b.
Proof.
  unfold Js.ltb. rewrite negb_true_iff.
  destruct (Qle_bool b a) eqn:E.
  - apply Qle_bool_iff in E. split; [discriminate | intro H; exfalso; lra].
  - split; [intros _ | reflexivity].
    destruct (Qlt_le_dec a b) as [L | L]; [exact L |].
    apply Qle_bool_iff in L. congruence.
Qed.

Lemma ltb_ge (a b : Q) : Js.ltb a b = false <-> b <= a.
Proof.
  unfold Js.ltb. rewrite negb_false_iff. apply Qle_bool_iff.
Qed.

(** A [reduce] that keeps the accumulator unless the current element is
    strictly smaller under a measure [d] ends on the first element of
    least measure. *)
Section KeepUnlessSmaller.
Context {A : Type} (d : A -> Q).

Lemma fold_keep_firstLeast (l : list A) (x : A) :
  exists i, Js.firstLeast d (x :: l) i (fold_left (Js.keep d) l x).
Proof.
  induction l as [| c0 l IH] using rev_ind.
  - exists 0%nat. repeat split.
    + intros [| j] c E; simpl in E.
      * injection E as <-. apply Qle_refl.
      * destruct j; discriminate.
    + intros j c Hj. lia.
  - rewrite fold_left_app. simpl.
    destruct IH as (i & Hi & Hall & Hbefore).
    set (r := fold_left (Js.keep d) l x) in *.
    assert (Hlen : (i < List.length (x :: l))%nat).
    { apply nth_error_Some. rewrite Hi. discriminate. }
    change (x :: l ++ [c0]) with ((x :: l) ++ [c0]).
    assert (Hsplit : forall j c, nth_error ((x :: l) ++ [c0]) j = Some c ->
              ((j < List.length (x :: l))%nat /\ nth_error (x :: l) j = Some c)
              \/ (j = List.length (x :: l) /\ c = c0)).
    { intros j c E.
      destruct (Nat.lt_ge_cases j (List.length (x :: l))) as [Lt | Ge].
      - left. split; [exact Lt |]. rewrite nth_error_app1 in E; assumption.
      - right. rewrite nth_error_app2 in E by exact Ge.
        destruct (j - List.length (x :: l))%nat as [| k] eqn:D; simpl in E.
        + injection E as <-. split; [lia | reflexivity].
        + destruct k; discriminate. }
    unfold Js.keep at 1. destruct (Js.ltb (d c0) (d r)) eqn:C.
    + apply ltb_lt in C.
      exists (List.length (x :: l)). repeat split.
      * rewrite nth_error_app2 by lia. rewrite Nat.sub_diag. reflexivity.
      * intros j c E. destruct (Hsplit j c E) as [[_ E'] | [_ ->]].
        -- specialize (Hall j c E'). lra.
        -- apply Qle_refl.
      * intros j c Hj E. destruct (Hsplit j c E) as [[_ E'] | [-> _]].
        -- specialize (Hall j c E'). lra.
        -- lia.
    + apply ltb_ge in C.
      exists i. repeat split.
      * rewrite nth_error_app1 by exact Hlen. exact Hi.
      * intros j c E. destruct (Hsplit j c E) as [[_ E'] | [_ ->]].
        -- exact (Hall j c E').
        -- exact C.
      * intros j c Hj E. destruct (Hsplit j c E) as [[_ E'] | [-> _]].
        -- exact (Hbefore j c Hj E').
        -- lia.
Qed.
End KeepUnlessSmaller.

(** *** Occurrences in joined strings *)

Lemma toLowerCase_append (a b : string) :
  Js.toLowerCase (a ++ b) = (Js.toLowerCase a ++ Js.toLowerCase b)%string.
Proof. induction a as [| c a IH]; simpl; [reflexivity | now rewrite IH]. Qed.

Lemma toLowerCase_join_empty (l : list string) :
  Js.toLowerCase (Js.join "" l) = Js.join "" (map Js.toLowerCase l).
Proof.
  induction l as [| p [| q rest] IH]; try reflexivity.
  change (Js.join "" (p :: q :: rest)) with (p ++ Js.join "" (q :: rest))%string.
  rewrite toLowerCase_append, IH. reflexivity.
Qed.

Lemma prefix_empty (h : string) : String.prefix "" h = true.
Proof. destruct h; reflexivity. Qed.

Lemma prefix_append (k h q : string) :
  String.prefix k h = true -> String.prefix k (h ++ q) = true.
Proof.
  revert h. induction k as [| c k IH]; intros h H; [apply prefix_empty |].
  destruct h as [| a h]; simpl in *; [discriminate |].
  destruct (ascii_dec c a); [apply IH; exact H | discriminate].
Qed.

Lemma includes_empty (h : string) : Js.includes h "" = true.
Proof. destruct h; reflexivity. Qed.

Lemma includes_append_r (h q k : string) :
  Js.includes h k = true -> Js.includes (h ++ q) k = true.
Proof.
  induction h as [| a h IH]; cbn [Js.includes String.append].
  - destruct k; [intros _; apply includes_empty | discriminate].
  - destruct (String.prefix k (String a h)) eqn:P.
    + intros _. change (String a (h ++ q)) with (String a h ++ q)%string.
      rewrite (prefix_append _ _ q P). reflexivity.
    + intro H. destruct (String.prefix k (String a (h ++ q))); [reflexivity |].
      apply IH. exact H.
Qed.

Lemma includes_append_l (p h k : string) :
  Js.includes h k = true -> Js.includes (p ++ h) k = true.
Proof.
  intro H. induction p as [| a p IH]; cbn [Js.includes String.append]; [exact H |].
  destruct (String.prefix k (String a (p ++ h))); [reflexivity | exact IH].
Qed.

(** A match of a word without spaces does not run over a space. *)
Lemma prefix_before_space (k h rest : string) :
  Js.spaceFree k = true ->
  String.prefix k (h ++ String " " rest) = true -> String.prefix k h = true.
Proof.
  revert h. induction k as [| c k IH]; intros h F H; [apply prefix_empty |].
  simpl in F. apply andb_true_iff in F. destruct F as [Fc Fk].
  destruct h as [| a h]; simpl in *.
  - destruct (ascii_dec c " ") as [-> | N]; [discriminate Fc | discriminate H].
  - destruct (ascii_dec c a); [apply IH; assumption | discriminate].
Qed.

Lemma includes_across_space (k h rest : string) :
  Js.spaceFree k = true -> k <> EmptyString ->
  Js.includes (h ++ String " " rest) k = true ->
  Js.includes h k = true \/ Js.includes rest k = true.
Proof.
  intros F N. induction h as [| a h IH]; cbn [Js.includes String.append].
  - destruct k as [| c k]; [contradiction |].
    simpl in F. apply andb_true_iff in F. destruct F as [Fc _].
    assert (P : String.prefix (String c k) (String " " rest) = false).
    { simpl. destruct (ascii_dec c " ") as [-> | Nc]; [discriminate Fc | reflexivity]. }
    rewrite P. intro H. right. exact H.
  - destruct (String.prefix k (String a (h ++ String " " rest))) eqn:P.
    + intros _. left.
      change (String a (h ++ String " " rest))
        with (String a h ++ String " " rest)%string in P.
      rewrite (prefix_before_space k _ rest F P). reflexivity.
    + intro H. destruct (IH H) as [L | R]; [| right; exact R].
      left. destruct (String.prefix k (String a h)); [reflexivity | exact L].
Qed.

(** A word without spaces that occurs in the strings joined by spaces
    occurs in the strings joined by nothing. *)
Lemma includes_join_space (k : string) (l : list string) :
  Js.spaceFree k = true -> k <> EmptyString ->
  Js.includes (Js.join " " l) k = true ->
  Js.includes (Js.join "" l) k = true.
Proof.
  intros F N. induction l as [| p [| q rest] IH].
  - exact (fun H => H).
  - exact (fun H => H).
  - change (Js.join " " (p :: q :: rest))
      with (p ++ String " " (Js.join " " (q :: rest)))%string.
    change (Js.join "" (p :: q :: rest))
      with (p ++ Js.join "" (q :: rest))%string.
    intro H. destruct (includes_across_space k p _ F N H) as [L | R].
    + apply includes_append_r. exact L.
    + apply includes_append_l. apply IH. exact R.
Qed.

End JsFacts.

Module AspectRatioFacts.
Import AspectRatio.

Lemma closestSupported_nearestFirst (ratio : Q) :
  exists i, nearestFirst ratio i (closestSupported ratio).
Proof.
  unfold nearestFirst, closestSupported, supported, Js.reduce.
  apply (JsFacts.fold_keep_firstLeast (distance ratio)).
Qed.

Lemma no_keyword (text : string) :
  firstKeyword text = None ->
  Js.includes text "16:9" = false /\ Js.includes text "9:16" = false /\
  Js.includes text "4:3" = false /\ Js.includes text "3:4" = false /\
  Js.includes text "1:1" = false /\ Js.includes text "square" = false.
Proof.
  unfold firstKeyword, keywords. simpl.
  repeat match goal with
         | |- context [if ?b then _ else _] => destruct b; [discriminate |]
         end.
  intros _. repeat split.
Qed.

Lemma concatenatedEdits_join (edits : list SuggestedEdit) :
  concatenatedEdits edits =
  Js.join "" (map (fun e => Js.toLowerCase (edit e)) edits).
Proof.
  unfold concatenatedEdits. rewrite JsFacts.toLowerCase_join_empty, map_map.
  reflexivity.
Qed.

(** A keyword that occurs in the text the source scans occurs in the
    instructions put end to end: no keyword has a space in it. *)
Lemma keyword_in_concatenated (edits : list SuggestedEdit) (k : string) :
  In k keywords ->
  Js.includes (combinedEdits edits) k = true ->
  Js.includes (concatenatedEdits edits) k = true.
Proof.
  intros Hin H. rewrite concatenatedEdits_join.
  apply JsFacts.includes_join_space; [| | exact H];
    simpl in Hin;
    repeat (destruct Hin as [<- | Hin]; [reflexivity || discriminate |]);
    contradiction.
Qed.

Lemma no_keyword_concatenated (edits : list SuggestedEdit) :
  firstKeyword (concatenatedEdits edits) = None ->
  firstKeyword (combinedEdits edits) = None.
Proof.
  unfold firstKeyword. intro H.
  destruct (find (Js.includes (combinedEdits edits)) keywords) as [k |] eqn:F;
    [| reflexivity].
  apply find_some in F. destruct F as [Hin Hocc].
  pose proof (find_none _ _ H k Hin) as C.
  rewrite (keyword_in_concatenated edits k Hin Hocc) in C. discriminate C.
Qed.

(** C2. Geometric fallback: for positive [w] and [h] and instructions in
    which no ratio keyword occurs (in their lower-cased texts, whether
    joined by spaces as the source joins them or put end to end),
    [getBestAspectRatio] returns the name of the entry of the table
    1:1 -> 1, 3:4 -> 0.75, 4:3 -> 1.3333, 9:16 -> 0.5625, 16:9 -> 1.7778
    whose value is nearest to [w / h]: no entry is nearer, and every entry
    listed before it is strictly farther, so a tie goes to the entry listed
    first.  In particular 1920 x 1080 gives 16:9 and 1000 x 1000 gives 1:1. *)
Theorem geometric_fallback (w h : Q) (edits : list SuggestedEdit) :
  0 < w -> 0 < h ->
  firstKeyword (combinedEdits edits) = None \/
  firstKeyword (concatenatedEdits edits) = None ->
  (exists i c,
      nth_error supported i = Some c /\
      getBestAspectRatio w h edits = s c /\
      (forall j c', nth_error supported j = Some c' ->
                    Qabs (v c - w / h) <= Qabs (v c' - w / h)) /\
      (forall j c', (j < i)%nat -> nth_error supported j = Some c' ->
                    Qabs (v c - w / h) < Qabs (v c' - w / h))) /\
  getBestAspectRatio 1920 1080 noEdits = "16:9" /\
  getBestAspectRatio 1000 1000 noEdits = "1:1".
Proof.
  intros _ _ Hno. split; [| split; reflexivity].
  assert (Hnone : firstKeyword (combinedEdits edits) = None).
  { destruct Hno as [H | H]; [exact H | apply no_keyword_concatenated; exact H]. }
  apply no_keyword in Hnone.
  destruct Hnone as (H1 & H2 & H3 & H4 & H5 & H6).
  destruct (closestSupported_nearestFirst (w / h)) as (i & Hi & Hall & Hbefore).
  exists i, (closestSupported (w / h)). split; [exact Hi |]. split.
  - unfold getBestAspectRatio. cbv zeta.
    rewrite H1, H2, H3, H4, H5, H6. reflexivity.
  - split; [exact Hall | exact Hbefore].
Qed.

Lemma geometric_fallback_witness :
  exists i c,
    nth_error supported i = Some c /\
    getBestAspectRatio 7 8 acrossTwoEdits = s c /\
    (forall j c', nth_error supported j = Some c' ->
                  Qabs (v c - 7 / 8) <= Qabs (v c' - 7 / 8)) /\
    (forall j c', (j < i)%nat -> nth_error supported j = Some c' ->
                  Qabs (v c - 7 / 8) < Qabs (v c' - 7 / 8)).
Proof.
  apply (geometric_fallback 7 8 acrossTwoEdits); try reflexivity.
  left. reflexivity.
Defined.

(** C3, counterexample: in [Make it square] the only token, hence the first
    one, is [square]; the value returned is [1:1], which is not that token
    and does not occur in the instruction.  This refutes the claim whether
    the instructions are joined by spaces, as the source joins them, or put
    end to end.  Under the second reading there is more: [16:9] occurs in
    [Crop to 16:] followed by [9 for the banner], but not in the text the
    source scans, which has a space between the two, and the value returned
    for a square image is [1:1]. *)
Lemma keyword_override_square_counterexample :
  firstKeyword (combinedEdits makeItSquare) = Some "square" /\
  getBestAspectRatio 1920 1080 makeItSquare = "1:1" /\
  Js.includes (combinedEdits makeItSquare) "1:1" = false /\
  ~ ReturnsFirstToken combinedEdits /\
  ~ ReturnsFirstToken concatenatedEdits /\
  firstKeyword (concatenatedEdits acrossTwoEdits) = Some "16:9" /\
  firstKeyword (combinedEdits acrossTwoEdits) = None /\
  getBestAspectRatio 1000 1000 acrossTwoEdits = "1:1".
Proof.
  repeat split; try reflexivity.
  - intro H. specialize (H 1920 1080 makeItSquare "square" eq_refl).
    discriminate H.
  - intro H. specialize (H 1920 1080 makeItSquare "square" eq_refl).
    discriminate H.
Qed.

(** C3, amended. Keyword override: when one of the tokens 16:9, 9:16, 4:3,
    3:4, 1:1, square occurs in the lower-cased instructions joined by
    spaces, [getBestAspectRatio] returns the first of them, in that priority
    order, that occurs -- with [1:1] returned when that token is [square]
    -- whatever the width and the height; for instance 9:16 for 1920 x 1080
    with the instruction [Crop to 9:16 for mobile]. *)
Theorem keyword_override (w h : Q) (edits : list SuggestedEdit) :
  (exists k, In k keywords /\ Js.includes (combinedEdits edits) k = true) ->
  (exists k, firstKeyword (combinedEdits edits) = Some k /\
             getBestAspectRatio w h edits = ratioOfKeyword k) /\
  getBestAspectRatio 1920 1080 cropForMobile = "9:16".
Proof.
  intros (k0 & Hin & Hocc). split; [| reflexivity].
  unfold getBestAspectRatio, firstKeyword, keywords. cbv zeta. simpl find.
  set (text := combinedEdits edits) in *.
  destruct (Js.includes text "16:9") eqn:E1; [eexists; split; reflexivity |].
  destruct (Js.includes text "9:16") eqn:E2; [eexists; split; reflexivity |].
  destruct (Js.includes text "4:3") eqn:E3; [eexists; split; reflexivity |].
  destruct (Js.includes text "3:4") eqn:E4; [eexists; split; reflexivity |].
  destruct (Js.includes text "1:1") eqn:E5; [eexists; split; reflexivity |].
  destruct (Js.includes text "square") eqn:E6; [eexists; split; reflexivity |].
  exfalso. simpl in Hin.
  repeat (destruct Hin as [<- | Hin]; [congruence |]).
  exact Hin.
Qed.

Lemma keyword_override_witness :
  exists k, firstKeyword (combinedEdits makeItSquare) = Some k /\
            getBestAspectRatio 3 2 makeItSquare = ratioOfKeyword k.
Proof.
  apply (keyword_override 3 2 makeItSquare).
  exists "square". split; [simpl; tauto | reflexivity].
Defined.



(** *** Further properties of [getBestAspectRatio] *)

Lemma Qabs_cases (t : Q) :
  (0 <= t /\ Qabs t == t) \/ (t <= 0 /\ Qabs t == - t).
Proof.
  destruct (Qlt_le_dec t 0) as [N | P].
  - right. split; [lra | apply Qabs_neg; lra].
  - left. split; [exact P | apply Qabs_pos; exact P].
Qed.

Lemma closer_take (ratio : Q) (prev curr : Candidate) :
  Qabs (v curr - ratio) < Qabs (v prev - ratio) -> closer ratio prev curr = curr.
Proof. intro H. unfold closer. apply JsFacts.ltb_lt in H. rewrite H. reflexivity. Qed.

Lemma closer_keep (ratio : Q) (prev curr : Candidate) :
  Qabs (v prev - ratio) <= Qabs (v curr - ratio) -> closer ratio prev curr = prev.
Proof. intro H. unfold closer. apply JsFacts.ltb_ge in H. rewrite H. reflexivity. Qed.

Lemma closer_ratio_eq (r r' : Q) (prev curr : Candidate) :
  r == r' -> closer r prev curr = closer r' prev curr.
Proof.
  intro E. unfold closer.
  destruct (Js.ltb (Qabs (v curr - r')) (Qabs (v prev - r'))) eqn:C.
  - apply JsFacts.ltb_lt in C. rewrite <- E in C.
    apply JsFacts.ltb_lt in C. rewrite C. reflexivity.
  - apply JsFacts.ltb_ge in C. rewrite <- E in C.
    apply JsFacts.ltb_ge in C. rewrite C. reflexivity.
Qed.

Lemma closestSupported_ratio_eq (r r' : Q) :
  r == r' -> closestSupported r = closestSupported r'.
Proof.
  intro E. unfold closestSupported, supported, Js.reduce. simpl fold_left.
  rewrite !(closer_ratio_eq r r' _ _ E). reflexivity.
Qed.

Lemma closestSupported_in (ratio : Q) : In (closestSupported ratio) supported.
Proof.
  destruct (closestSupported_nearestFirst ratio) as (i & Hi & _).
  apply nth_error_In with i. exact Hi.
Qed.

(** X1. Whatever the dimensions and the instructions, the value returned
    is one of the five ratios of the table. *)
Theorem result_is_supported (w h : Q) (edits : list SuggestedEdit) :
  ~ h == 0 ->
  In (getBestAspectRatio w h edits) ["1:1"; "3:4"; "4:3"; "9:16"; "16:9"].
Proof.
  intros _. unfold getBestAspectRatio. cbv zeta.
  repeat match goal with
         | |- context [if ?b then _ else _] => destruct b; [simpl; tauto |]
         end.
  pose proof (closestSupported_in (w / h)) as H.
  apply (in_map s) in H. exact H.
Qed.

Lemma result_is_supported_witness :
  In (getBestAspectRatio 640 480 cropForMobile) ["1:1"; "3:4"; "4:3"; "9:16"; "16:9"].
Proof.
  apply (result_is_supported 640 480 cropForMobile). discriminate.
Defined.

Ltac abs_lra :=
  match goal with
  | |- Qabs ?a < Qabs ?b =>
      destruct (Qabs_cases a) as [[? ?] | [? ?]],
               (Qabs_cases b) as [[? ?] | [? ?]]; lra
  | |- Qabs ?a <= Qabs ?b =>
      destruct (Qabs_cases a) as [[? ?] | [? ?]],
               (Qabs_cases b) as [[? ?] | [? ?]]; lra
  end.

(** X2. The fallback as a decision table on [w / h], when no keyword occurs:
    below 0.65625 the result is 9:16, from there to below 0.875 it is 3:4,
    from 0.875 to 1.16665 it is 1:1, above that up to 1.55555 it is 4:3,
    and above 1.55555 it is 16:9. *)
Theorem fallback_decision_table (w h : Q) (edits : list SuggestedEdit) :
  ~ h == 0 ->
  firstKeyword (combinedEdits edits) = None ->
  (w / h < 0.65625 -> getBestAspectRatio w h edits = "9:16") /\
  (0.65625 <= w / h < 0.875 -> getBestAspectRatio w h edits = "3:4") /\
  (0.875 <= w / h <= 1.16665 -> getBestAspectRatio w h edits = "1:1") /\
  (1.16665 < w / h <= 1.55555 -> getBestAspectRatio w h edits = "4:3") /\
  (1.55555 < w / h -> getBestAspectRatio w h edits = "16:9").
Proof.
  intros _ Hno. apply no_keyword in Hno.
  destruct Hno as (H1 & H2 & H3 & H4 & H5 & H6).
  unfold getBestAspectRatio. cbv zeta. rewrite H1, H2, H3, H4, H5, H6.
  simpl orb. cbv iota.
  generalize (w / h). intro r.
  unfold closestSupported, supported, Js.reduce. simpl fold_left.
  repeat split; intro R.
  - rewrite (closer_take r _ {| s := "3:4"; v := 0.75 |}) by (cbn [v]; abs_lra).
    rewrite (closer_keep r _ {| s := "4:3"; v := 1.3333 |}) by (cbn [v]; abs_lra).
    rewrite (closer_take r _ {| s := "9:16"; v := 0.5625 |}) by (cbn [v]; abs_lra).
    rewrite (closer_keep r _ {| s := "16:9"; v := 1.7778 |}) by (cbn [v]; abs_lra).
    reflexivity.
  - rewrite (closer_take r _ {| s := "3:4"; v := 0.75 |}) by (cbn [v]; abs_lra).
    rewrite (closer_keep r _ {| s := "4:3"; v := 1.3333 |}) by (cbn [v]; abs_lra).
    rewrite (closer_keep r _ {| s := "9:16"; v := 0.5625 |}) by (cbn [v]; abs_lra).
    rewrite (closer_keep r _ {| s := "16:9"; v := 1.7778 |}) by (cbn [v]; abs_lra).
    reflexivity.
  - rewrite (closer_keep r _ {| s := "3:4"; v := 0.75 |}) by (cbn [v]; abs_lra).
    rewrite (closer_keep r _ {| s := "4:3"; v := 1.3333 |}) by (cbn [v]; abs_lra).
    rewrite (closer_keep r _ {| s := "9:16"; v := 0.5625 |}) by (cbn [v]; abs_lra).
    rewrite (closer_keep r _ {| s := "16:9"; v := 1.7778 |}) by (cbn [v]; abs_lra).
    reflexivity.
  - rewrite (closer_keep r _ {| s := "3:4"; v := 0.75 |}) by (cbn [v]; abs_lra).
    rewrite (closer_take r _ {| s := "4:3"; v := 1.3333 |}) by (cbn [v]; abs_lra).
    rewrite (closer_keep r _ {| s := "9:16"; v := 0.5625 |}) by (cbn [v]; abs_lra).
    rewrite (closer_keep r _ {| s := "16:9"; v := 1.7778 |}) by (cbn [v]; abs_lra).
    reflexivity.
  - rewrite (closer_keep r _ {| s := "3:4"; v := 0.75 |}) by (cbn [v]; abs_lra).
    rewrite (closer_take r _ {| s := "4:3"; v := 1.3333 |}) by (cbn [v]; abs_lra).
    rewrite (closer_keep r _ {| s := "9:16"; v := 0.5625 |}) by (cbn [v]; abs_lra).
    rewrite (closer_take r _ {| s := "16:9"; v := 1.7778 |}) by (cbn [v]; abs_lra).
    reflexivity.
Qed.

Lemma fallback_decision_table_witness :
  getBestAspectRatio 3000 2000 noEdits = "4:3" /\
  getBestAspectRatio 1080 1920 noEdits = "9:16".
Proof.
  assert (N2000 : ~ 2000 == 0) by discriminate.
  assert (N1920 : ~ 1920 == 0) by discriminate.
  pose proof (fallback_decision_table 3000 2000 noEdits N2000 eq_refl)
    as (_ & _ & _ & A & _).
  pose proof (fallback_decision_table 1080 1920 noEdits N1920 eq_refl)
    as (B & _).
  split.
  - apply A. split; [reflexivity | discriminate].
  - apply B. reflexivity.
Defined.

(** X3. Only the proportion of the original counts, not its size: scaling
    the width and the height by the same non-zero factor gives the same
    result. *)
Theorem result_scale_invariant (k w h : Q) (edits : list SuggestedEdit) :
  ~ k == 0 -> ~ h == 0 ->
  getBestAspectRatio (k * w) (k * h) edits = getBestAspectRatio w h edits.
Proof.
  intros K H. unfold getBestAspectRatio. cbv zeta.
  assert (E : (k * w) / (k * h) == w / h) by (field; split; assumption).
  rewrite (closestSupported_ratio_eq _ _ E). reflexivity.
Qed.

Lemma result_scale_invariant_witness :
  getBestAspectRatio (2 * 960) (2 * 540) noEdits = getBestAspectRatio 960 540 noEdits.
Proof.
  apply (result_scale_invariant 2 960 540 noEdits); discriminate.
Defined.

End AspectRatioFacts.

Module ValidatorFacts.
Import Validator.
Local Open Scope list_scope.
Local Open Scope validator_scope.

Lemma orElse_Return (a b : bool) :
  Return a <||> Return b = Return (a || b).
Proof. destruct a; reflexivity. Qed.

(** On anything but [null] a member is read without an exception. *)
Lemma getProp_not_null (raw : json) (k : string) :
  raw <> JNull -> exists x, getProp raw k = Return x.
Proof.
  intro H. destruct raw; simpl; try (eexists; reflexivity).
  - contradiction.
  - destruct (lookupLast k members); eexists; reflexivity.
Qed.

Lemma typeofIsNot_number (raw : json) (k : string) :
  raw <> JNull ->
  typeofIsNot raw k "number" = Return (negb (satisfies raw (k, IsNumber))).
Proof.
  intro H. destruct (getProp_not_null raw k H) as [x E].
  unfold typeofIsNot, satisfies. simpl fst. simpl snd. rewrite E.
  destruct x as [| []]; reflexivity.
Qed.

Lemma typeofIsNot_string (raw : json) (k : string) :
  raw <> JNull ->
  typeofIsNot raw k "string" = Return (negb (satisfies raw (k, IsString))).
Proof.
  intro H. destruct (getProp_not_null raw k H) as [x E].
  unfold typeofIsNot, satisfies. simpl fst. simpl snd. rewrite E.
  destruct x as [| []]; reflexivity.
Qed.

Lemma isNotArray_satisfies (raw : json) (k : string) :
  raw <> JNull ->
  isNotArray raw k = Return (negb (satisfies raw (k, IsArray))).
Proof.
  intro H. destruct (getProp_not_null raw k H) as [x E].
  unfold isNotArray, satisfies. simpl fst. simpl snd. rewrite E.
  destruct x as [| []]; reflexivity.
Qed.

(** The condition of the [if] is true exactly when some check fails. *)
Lemma mismatch_checks (variant : Variant) (raw : json) :
  raw <> JNull ->
  mismatch variant raw = Return (negb (forallb (satisfies raw) (checks variant))).
Proof.
  intro H. destruct variant; unfold mismatch, checks;
    rewrite !typeofIsNot_number, !typeofIsNot_string, isNotArray_satisfies by exact H;
    rewrite !orElse_Return; simpl forallb;
    repeat match goal with
           | |- context [satisfies raw ?kc] => destruct (satisfies raw kc)
           end; reflexivity.
Qed.

Lemma mismatch_null (variant : Variant) :
  mismatch variant JNull = Throw TypeError.
Proof. destruct variant; reflexivity. Qed.

Lemma checks_null (variant : Variant) :
  forallb (satisfies JNull) (checks variant) = false.
Proof. destruct variant; reflexivity. Qed.

Lemma json_null_dec (raw : json) : {raw = JNull} + {raw <> JNull}.
Proof. destruct raw; ((left; reflexivity) || (right; discriminate)). Qed.

(** The validator accepts exactly the structures that pass every check,
    and hands them back unchanged; all others get the one fixed error. *)
Lemma validate_checks (variant : Variant) (raw : json) :
  validate variant raw =
  if forallb (satisfies raw) (checks variant)
  then Return raw
  else Throw (Error failureMessage).
Proof.
  unfold validate, analyzeImage, tryBody, typeValidation. simpl negb. cbv iota.
  destruct (json_null_dec raw) as [-> | H].
  - rewrite mismatch_null, checks_null. reflexivity.
  - rewrite (mismatch_checks variant raw H).
    destruct (forallb (satisfies raw) (checks variant)); reflexivity.
Qed.

Lemma firstViolation_checks (variant : Variant) (raw : json) (field : string) :
  firstViolation variant raw = Some field ->
  forallb (satisfies raw) (checks variant) = false /\
  In field (map fst (checks variant)).
Proof.
  unfold firstViolation.
  destruct (find _ (checks variant)) as [kc |] eqn:F; [| discriminate].
  intro E. injection E as <-.
  apply find_some in F. destruct F as [Hin Hneg].
  split.
  - destruct (forallb (satisfies raw) (checks variant)) eqn:A; [| reflexivity].
    rewrite forallb_forall in A. rewrite (A kc Hin) in Hneg. discriminate.
  - apply in_map. exact Hin.
Qed.

Lemma wellShaped_checks (variant : Variant) (raw : json) :
  wellShaped variant raw -> forallb (satisfies raw) (checks variant) = true.
Proof.
  intros (H1 & H2 & H3 & H4 & H5 & H6 & H7).
  destruct variant; simpl forallb.
  - rewrite H1, H3, H4, H5, H6, H7. reflexivity.
  - rewrite H1, (H2 eq_refl), H3, H4, H5, H6, H7. reflexivity.
Qed.

(** C6, counterexample: with [rating] a string the first violated check is
    the one on [rating]; the error that comes out is the fixed one of the
    [catch], the error thrown inside the [try] is the fixed one of the
    [if], and [rating] occurs in neither. *)
Lemma validation_error_names_no_field_counterexample :
  firstViolation WithProjectedRating ratingAsText = Some "rating" /\
  validate WithProjectedRating ratingAsText = Throw (Error failureMessage) /\
  typeValidation WithProjectedRating ratingAsText = Throw (Error mismatchMessage) /\
  Js.includes failureMessage "rating" = false /\
  Js.includes mismatchMessage "rating" = false /\
  ~ NamesOffendingField.
Proof.
  repeat split; try reflexivity.
  intro H.
  destruct (H WithProjectedRating ratingAsText "rating" eq_refl) as (m & E & I).
  vm_compute in E. injection E as <-. vm_compute in I. discriminate I.
Qed.

(** C6, amended. For every structure that violates one of the ordered
    shape checks, the validation fails, and it fails with one fixed
    message whichever check was violated: the error thrown at the check is
    [API response does not match the expected PhotoAnalysis structure.],
    the error [analyzeImage] lets out is [Failed to get analysis from
    Gemini. Please check the console for more details.]; neither names the
    offending member. *)
Theorem validation_fails_with_fixed_message
    (variant : Variant) (raw : json) (field : string) :
  firstViolation variant raw = Some field ->
  validate variant raw = Throw (Error failureMessage) /\
  (raw <> JNull -> typeValidation variant raw = Throw (Error mismatchMessage)) /\
  Js.includes failureMessage field = false /\
  Js.includes mismatchMessage field = false.
Proof.
  intro H. apply firstViolation_checks in H. destruct H as [Hall Hin].
  split; [| split].
  - rewrite validate_checks, Hall. reflexivity.
  - intro Hnn. unfold typeValidation.
    rewrite (mismatch_checks variant raw Hnn), Hall. reflexivity.
  - destruct variant; simpl in Hin;
      repeat (destruct Hin as [<- | Hin]; [split; reflexivity |]);
      contradiction.
Qed.

Lemma validation_fails_with_fixed_message_witness :
  validate Plain withoutEdits = Throw (Error failureMessage) /\
  (withoutEdits <> JNull ->
   typeValidation Plain withoutEdits = Throw (Error mismatchMessage)) /\
  Js.includes failureMessage "suggested_edits" = false /\
  Js.includes mismatchMessage "suggested_edits" = false.
Proof.
  apply (validation_fails_with_fixed_message Plain withoutEdits "suggested_edits").
  reflexivity.
Defined.

(** C7. Acceptance set: the validation refuses a structure without
    [suggested_edits] and one whose [rating] is a string; it accepts, and
    returns unchanged, every structure whose [rating] (and
    [projected_rating], in that variant) is a number, whose four
    commentaries are strings and whose [suggested_edits] is an array --
    whatever the length of the array (three edits, or none) and whatever
    the numbers (outside 1..10, projected rating below the rating). *)
Theorem acceptance_set (variant : Variant) (raw : json)
    (members : list (string * json)) (text : string) :
  (wellShaped variant raw -> validate variant raw = Return raw) /\
  (lookupLast "suggested_edits" members = None ->
   validate variant (JObject members) = Throw (Error failureMessage)) /\
  (lookupLast "rating" members = Some (JString text) ->
   validate variant (JObject members) = Throw (Error failureMessage)) /\
  validate variant threeEdits = Return threeEdits /\
  validate variant outOfRange = Return outOfRange.
Proof.
  split; [| split; [| split; [| split]]].
  - intro H. rewrite validate_checks, (wellShaped_checks variant raw H). reflexivity.
  - intro H. rewrite validate_checks.
    assert (S : satisfies (JObject members) ("suggested_edits", IsArray) = false).
    { unfold satisfies. simpl. rewrite H. reflexivity. }
    destruct variant; simpl forallb; rewrite S, ?andb_false_r; reflexivity.
  - intro H. rewrite validate_checks.
    assert (S : satisfies (JObject members) ("rating", IsNumber) = false).
    { unfold satisfies. simpl. rewrite H. reflexivity. }
    destruct variant; simpl forallb; rewrite S; reflexivity.
  - destruct variant; reflexivity.
  - destruct variant; reflexivity.
Qed.

Lemma acceptance_set_witness :
  validate WithProjectedRating outOfRange = Return outOfRange /\
  validate Plain withoutEdits = Throw (Error failureMessage) /\
  validate Plain ratingAsText = Throw (Error failureMessage).
Proof.
  pose proof (acceptance_set WithProjectedRating outOfRange [] "") as A.
  pose proof (acceptance_set Plain withoutEdits
                [ ("rating", JNumber 7); ("projected_rating", JNumber 8);
                  ("composition", JString "c"); ("lighting", JString "l");
                  ("subject", JString "s"); ("overall_comment", JString "o") ]
                "") as B.
  pose proof (acceptance_set Plain ratingAsText
                [ ("rating", JString "7"); ("projected_rating", JNumber 8);
                  ("composition", JString "c"); ("lighting", JString "l");
                  ("subject", JString "s"); ("overall_comment", JString "o");
                  ("suggested_edits", JArray []) ]
                "7") as C.
  split; [| split].
  - apply (proj1 A). repeat split.
  - apply (proj1 (proj2 B)). reflexivity.
  - apply (proj1 (proj2 (proj2 C))). reflexivity.
Defined.



End ValidatorFacts.

Module AppFacts.
Import App.
Local Open Scope list_scope.
Local Open Scope app_scope.

(** *** The list of pending tasks *)

Lemma nth_error_spawned (l : list Task) (t : Task) :
  nth_error (l ++ [t]) (List.length l) = Some t.
Proof. induction l as [| a l IH]; simpl; [reflexivity | exact IH]. Qed.

Lemma replaceAt_spawned (l : list Task) (t t' : Task) :
  replaceAt (List.length l) t' (l ++ [t]) = l ++ [t'].
Proof. induction l as [| a l IH]; simpl; [reflexivity | now rewrite IH]. Qed.

Lemma removeAt_spawned (l : list Task) (t : Task) :
  removeAt (List.length l) (l ++ [t]) = l.
Proof. induction l as [| a l IH]; simpl; [reflexivity | now rewrite IH]. Qed.

(** *** Data URLs *)

Lemma fetchBlob_pngDataUrl (b : string) :
  fetchBlob (pngDataUrl b) = Some {| blob_type := "image/png"; blob_data := b |}.
Proof.
  unfold fetchBlob, pngDataUrl. simpl. destruct b; reflexivity.
Qed.

Lemma step_editedIsDataUrl (w : World) (e : Event) :
  editedIsDataUrl (app w) -> editedIsDataUrl (app (step w e)).
Proof.
  unfold editedIsDataUrl. intro H.
  destruct e as [[[f u] |] | | | | | i o | i o | i o]; simpl.
  - exact I.
  - exact I.
  - unfold handleAnalyzeClick. destruct (selectedFile (app w)); simpl; [exact I | exact H].
  - unfold handleEditClick.
    destruct (selectedFile (app w)), (analysisResult (app w)); simpl; exact H.
  - unfold handleReanalyzeEdited.
    destruct (editedImage (app w)) eqn:E; simpl; [exact I | rewrite E; exact I].
  - exact I.
  - destruct (nth_error (pending w) i) as [[] |]; try exact H.
    + destruct o as [a | []]; simpl; exact H.
    + destruct o as [a | r]; simpl; exact H.
  - destruct (nth_error (pending w) i) as [[] |]; try exact H.
    destruct o as [a | []]; simpl; try exact H.
    eexists. reflexivity.
  - destruct (nth_error (pending w) i) as [[] |]; try exact H.
    unfold fetchSettled.
    destruct o as [a | r]; [destruct (fetchBlob newImageSrc) |]; simpl; exact H.
Qed.

Lemma run_editedIsDataUrl (es : list Event) (w : World) :
  editedIsDataUrl (app w) -> editedIsDataUrl (app (run w es)).
Proof.
  revert w. induction es as [| e es IH]; intros w H; simpl.
  - exact H.
  - apply IH. apply step_editedIsDataUrl. exact H.
Qed.

Lemma phase_EditReady (st : State) :
  phase st = EditReady ->
  isLoadingAnalysis st = false /\ analysisError st = None /\
  (exists a, analysisResult st = Some a) /\ isEditing st = false /\
  (exists src, editedImage st = Some src).
Proof.
  unfold phase, isSome.
  destruct (isLoadingAnalysis st); [discriminate |].
  destruct (analysisError st); [discriminate |].
  destruct (analysisResult st) as [a |]; [| discriminate]. simpl.
  destruct (isEditing st); [discriminate |].
  destruct (editedImage st) as [src |].
  - intros _. repeat split; eauto.
  - destruct (editError st); discriminate.
Qed.

(** In a reachable [EditReady] state the edited image is a PNG data URL. *)
Lemma reachable_EditReady (es : list Event) :
  phase (app (run start es)) = EditReady ->
  exists b, editedImage (app (run start es)) = Some (pngDataUrl b).
Proof.
  intro H. apply phase_EditReady in H.
  destruct H as (_ & _ & _ & _ & src & E).
  pose proof (run_editedIsDataUrl es start I) as D.
  unfold editedIsDataUrl in D. rewrite E in D. destruct D as [b ->].
  exists b. exact E.
Qed.

(** *** The re-analysis, step by step *)

Lemma reanalyze_click (w : World) (b : string) :
  editedImage (app w) = Some (pngDataUrl b) ->
  step w ReanalyzeEditedClick =
  {| app := reanalyzing (app w);
     pending := pending w ++ [FetchTask (pngDataUrl b)] |}.
Proof.
  intro E. simpl. unfold handleReanalyzeEdited. rewrite E. reflexivity.
Qed.

Lemma reanalyze_fetched (w : World) (b : string) :
  editedImage (app w) = Some (pngDataUrl b) ->
  step (step w ReanalyzeEditedClick)
       (FetchSettles (List.length (pending w)) (Fulfilled tt)) =
  {| app := sourceReplaced b;
     pending := pending w ++ [ReanalyzeTask (editedAsFile b)] |}.
Proof.
  intro E. rewrite (reanalyze_click w b E).
  unfold step. cbn [pending].
  rewrite nth_error_spawned.
  unfold fetchSettled. rewrite fetchBlob_pngDataUrl.
  unfold continueWith, onApp. cbn [pending app].
  rewrite replaceAt_spawned. reflexivity.
Qed.

Lemma reanalyze_settled (w : World) (b : string) (o : Outcome PhotoAnalysis) :
  editedImage (app w) = Some (pngDataUrl b) ->
  step (step (step w ReanalyzeEditedClick)
             (FetchSettles (List.length (pending w)) (Fulfilled tt)))
       (AnalysisSettles (List.length (pending w)) o) =
  {| app := app (reanalyzeSettled o {| app := sourceReplaced b; pending := [] |});
     pending := pending w |}.
Proof.
  intro E. rewrite (reanalyze_fetched w b E).
  unfold step. cbn [pending].
  rewrite nth_error_spawned.
  unfold finish. destruct o as [a | r]; cbn; rewrite removeAt_spawned; reflexivity.
Qed.

(** *** The claims on the workflow *)

(** C1, counterexample: photo A is selected and its analysis requested;
    photo B is selected while that request is outstanding -- every control
    used is on the screen.  The controller is then still [Analyzing], not
    [Idle]; and when the analysis of A arrives it is installed: the
    controller is [Ready], showing B with the critique of A. *)
Lemma stale_result_counterexample :
  offeredAll start staleArrival = true /\
  phase (app (run start selectWhileAnalyzing)) = Analyzing /\
  pending (run start selectWhileAnalyzing) = [AnalyzeTask photoA] /\
  selectedFile (app (run start staleArrival)) = Some photoB /\
  analysisResult (app (run start staleArrival)) = Some critique /\
  phase (app (run start staleArrival)) = Ready /\
  ~ StaleResultDiscarded.
Proof.
  repeat split; try reflexivity.
  intro H.
  destruct (H (run start [ImageSelect (Some (photoA, "blob:a")); AnalyzeClick])
              0%nat photoA photoB "blob:b" critique eq_refl eq_refl)
    as (P & _).
  discriminate P.
Qed.

(** C1, amended. If a new image is selected while an analysis request is
    outstanding, the controller takes the new image and clears the
    analysis, both errors and the edited image, but it stays [Analyzing]
    and the request stays outstanding; when that request later succeeds,
    its result is installed as the current analysis and the loading flag
    is cleared, so the controller leaves [Analyzing] for a state that has
    an analysis ([Ready], when no edit is running), holding the new image. *)
Theorem stale_result_installed
    (w : World) (i : nat) (file newFile : File) (url : string)
    (result : PhotoAnalysis) :
  isLoadingAnalysis (app w) = true ->
  nth_error (pending w) i = Some (AnalyzeTask file) ->
  let w1 := step w (ImageSelect (Some (newFile, url))) in
  let w2 := step w1 (AnalysisSettles i (Fulfilled result)) in
  (selectedFile (app w1) = Some newFile /\
   previewUrl (app w1) = Some url /\
   analysisResult (app w1) = None /\
   analysisError (app w1) = None /\
   editedImage (app w1) = None /\
   editError (app w1) = None /\
   phase (app w1) = Analyzing /\
   pending w1 = pending w) /\
  (analysisResult (app w2) = Some result /\
   selectedFile (app w2) = Some newFile /\
   isLoadingAnalysis (app w2) = false /\
   phase (app w2) <> Idle /\
   (isEditing (app w) = false -> phase (app w2) = Ready) /\
   pending w2 = removeAt i (pending w)).
Proof.
  intros L T w1 w2. subst w2 w1.
  split.
  - simpl. unfold phase. simpl. rewrite L. repeat split.
  - unfold step at 1. cbn [handleImageSelect onApp pending step].
    rewrite T. cbn. unfold phase. cbn.
    repeat split.
    + destruct (isEditing (app w)); discriminate.
    + intros ->. reflexivity.
Qed.

Lemma stale_result_installed_witness :
  analysisResult (app (run start staleArrival)) = Some critique /\
  selectedFile (app (run start staleArrival)) = Some photoB /\
  phase (app (run start staleArrival)) = Ready.
Proof.
  pose proof (stale_result_installed
                (run start [ImageSelect (Some (photoA, "blob:a")); AnalyzeClick])
                0%nat photoA photoB "blob:b" critique eq_refl eq_refl) as H.
  cbv zeta in H. destruct H as (_ & A & S & _ & _ & R & _).
  split; [exact A | split; [exact S | exact (R eq_refl)]].
Defined.

(** C4. Precondition rejection without external call: an edit requested
    when there is no analysis (as in [Idle]) or no image changes nothing at
    all; an analysis requested when no image is selected starts no task,
    leaves both busy flags as they were, and only records the message
    [Please select an image file first.] -- in neither case is a request
    issued or [Analyzing] or [Editing] entered. *)
Theorem precondition_rejection (w : World) :
  (analysisResult (app w) = None \/ selectedFile (app w) = None ->
   handleEditClick w = w) /\
  (phase (app w) = Idle -> step w EditClick = w) /\
  (selectedFile (app w) = None ->
   pending (handleAnalyzeClick w) = pending w /\
   isLoadingAnalysis (app (handleAnalyzeClick w)) = isLoadingAnalysis (app w) /\
   isEditing (app (handleAnalyzeClick w)) = isEditing (app w) /\
   app (handleAnalyzeClick w) =
     setAnalysisError (Some "Please select an image file first.") (app w) /\
   (phase (app w) <> Analyzing -> phase (app (handleAnalyzeClick w)) <> Analyzing) /\
   (phase (app w) <> Editing -> phase (app (handleAnalyzeClick w)) <> Editing)).
Proof.
  split; [| split].
  - unfold handleEditClick. intros [H | H]; rewrite H.
    + destruct (selectedFile (app w)); reflexivity.
    + reflexivity.
  - intro P. simpl. unfold handleEditClick.
    assert (A : analysisResult (app w) = None).
    { revert P. unfold phase, isSome.
      destruct (isLoadingAnalysis (app w)); [discriminate |].
      destruct (analysisError (app w)); [discriminate |].
      destruct (analysisResult (app w)); [| reflexivity]. simpl.
      destruct (isEditing (app w)); [discriminate |].
      destruct (editedImage (app w)); [discriminate |].
      destruct (editError (app w)); discriminate. }
    rewrite A. destruct (selectedFile (app w)); reflexivity.
  - intro H. unfold handleAnalyzeClick. rewrite H. cbn.
    repeat split.
    + unfold phase. cbn. destruct (isLoadingAnalysis (app w)); [tauto | discriminate].
    + unfold phase. cbn. destruct (isLoadingAnalysis (app w)); discriminate.
Qed.

Lemma precondition_rejection_witness :
  handleEditClick start = start /\
  step start EditClick = start /\
  pending (handleAnalyzeClick start) = [] /\
  isLoadingAnalysis (app (handleAnalyzeClick start)) = false.
Proof.
  pose proof (precondition_rejection start) as (E & I & A).
  split; [apply E; left; reflexivity |].
  split; [apply I; reflexivity |].
  destruct (A eq_refl) as (P & L & _).
  split; [exact P | exact L].
Defined.

(** C5. Re-analysis round trip: from a reachable [EditReady] state, the
    click on re-analysis, the fetch of the edited image and the success of
    its analysis lead to [Ready] with the edited image as the source: the
    preview is the very string that was the edited image, the selected
    file is the file made of that image's bytes and type (and that file,
    not the former source, is what the analysis was requested for). *)
Theorem reanalysis_round_trip (es : list Event) (result : PhotoAnalysis) :
  phase (app (run start es)) = EditReady ->
  exists improved,
    let w := run start es in
    let i := List.length (pending w) in
    let w1 := step w ReanalyzeEditedClick in
    let w2 := step w1 (FetchSettles i (Fulfilled tt)) in
    let w3 := step w2 (AnalysisSettles i (Fulfilled result)) in
    editedImage (app w) = Some (pngDataUrl improved) /\
    phase (app w1) = Analyzing /\
    nth_error (pending w2) i = Some (ReanalyzeTask (editedAsFile improved)) /\
    fileToBase64 (editedAsFile improved) = ("image/png", improved) /\
    phase (app w3) = Ready /\
    analysisResult (app w3) = Some result /\
    previewUrl (app w3) = editedImage (app w) /\
    selectedFile (app w3) = Some (editedAsFile improved).
Proof.
  intro P. destruct (reachable_EditReady es P) as [b E].
  exists b. cbv zeta.
  rewrite (reanalyze_settled _ b _ E), (reanalyze_fetched _ b E),
          (reanalyze_click _ b E), E.
  cbn [pending app]. rewrite nth_error_spawned.
  repeat split.
Qed.

Lemma reanalysis_round_trip_witness :
  exists improved,
    let w := run start untilEditReady in
    let i := List.length (pending w) in
    let w1 := step w ReanalyzeEditedClick in
    let w2 := step w1 (FetchSettles i (Fulfilled tt)) in
    let w3 := step w2 (AnalysisSettles i (Fulfilled critique)) in
    editedImage (app w) = Some (pngDataUrl improved) /\
    phase (app w1) = Analyzing /\
    nth_error (pending w2) i = Some (ReanalyzeTask (editedAsFile improved)) /\
    fileToBase64 (editedAsFile improved) = ("image/png", improved) /\
    phase (app w3) = Ready /\
    analysisResult (app w3) = Some critique /\
    previewUrl (app w3) = editedImage (app w) /\
    selectedFile (app w3) = Some (editedAsFile improved).
Proof.
  apply (reanalysis_round_trip untilEditReady critique). reflexivity.
Defined.

(** C10. Re-analysis is not atomic on error: from a reachable [EditReady]
    state, the click on re-analysis clears the edited image, the analysis
    and the edit error at once; the edited image is made the source before
    the analysis is requested; and if that analysis then fails the
    controller is in [AnalysisError], the comparison gone and the source
    already replaced: the [EditReady] state it came from is not restored. *)
Theorem reanalysis_not_atomic (es : list Event) (r : Rejection) :
  phase (app (run start es)) = EditReady ->
  exists improved,
    let w := run start es in
    let i := List.length (pending w) in
    let w1 := step w ReanalyzeEditedClick in
    let w2 := step w1 (FetchSettles i (Fulfilled tt)) in
    let w3 := step w2 (AnalysisSettles i (Rejected r)) in
    editedImage (app w) = Some (pngDataUrl improved) /\
    (editedImage (app w1) = None /\ analysisResult (app w1) = None /\
     editError (app w1) = None /\
     pending w1 = pending w ++ [FetchTask (pngDataUrl improved)]) /\
    (selectedFile (app w2) = Some (editedAsFile improved) /\
     previewUrl (app w2) = Some (pngDataUrl improved) /\
     isLoadingAnalysis (app w2) = true /\
     pending w2 = pending w ++ [ReanalyzeTask (editedAsFile improved)]) /\
    (phase (app w3) = AnalysisError /\
     analysisError (app w3) = Some "Failed to re-analyze the improved image." /\
     editedImage (app w3) = None /\ analysisResult (app w3) = None /\
     selectedFile (app w3) = Some (editedAsFile improved) /\
     previewUrl (app w3) = Some (pngDataUrl improved) /\
     phase (app w3) <> EditReady /\ app w3 <> app w).
Proof.
  intro P. destruct (reachable_EditReady es P) as [b E].
  exists b. cbv zeta.
  rewrite (reanalyze_settled _ b _ E), (reanalyze_fetched _ b E),
          (reanalyze_click _ b E), E.
  cbn [pending app].
  repeat split; try discriminate.
  intro Q. apply (f_equal editedImage) in Q. rewrite E in Q. discriminate Q.
Qed.

Lemma reanalysis_not_atomic_witness :
  exists improved,
    let w := run start untilEditReady in
    let i := List.length (pending w) in
    let w1 := step w ReanalyzeEditedClick in
    let w2 := step w1 (FetchSettles i (Fulfilled tt)) in
    let w3 := step w2 (AnalysisSettles i (Rejected NotAnError)) in
    editedImage (app w) = Some (pngDataUrl improved) /\
    (editedImage (app w1) = None /\ analysisResult (app w1) = None /\
     editError (app w1) = None /\
     pending w1 = pending w ++ [FetchTask (pngDataUrl improved)]) /\
    (selectedFile (app w2) = Some (editedAsFile improved) /\
     previewUrl (app w2) = Some (pngDataUrl improved) /\
     isLoadingAnalysis (app w2) = true /\
     pending w2 = pending w ++ [ReanalyzeTask (editedAsFile improved)]) /\
    (phase (app w3) = AnalysisError /\
     analysisError (app w3) = Some "Failed to re-analyze the improved image." /\
     editedImage (app w3) = None /\ analysisResult (app w3) = None /\
     selectedFile (app w3) = Some (editedAsFile improved) /\
     previewUrl (app w3) = Some (pngDataUrl improved) /\
     phase (app w3) <> EditReady /\ app w3 <> app w).
Proof.
  apply (reanalysis_not_atomic untilEditReady NotAnError). reflexivity.
Defined.

(** When it is the fetch of the edited image that is rejected, the [catch]
    is reached before the source is replaced: the comparison is gone all
    the same, the source is still the former one. *)
Lemma reanalysis_fetch_rejected (w : World) (b : string) (r : Rejection) :
  editedImage (app w) = Some (pngDataUrl b) ->
  step (step w ReanalyzeEditedClick)
       (FetchSettles (List.length (pending w)) (Rejected r)) =
  {| app := setIsLoadingAnalysis false
              (setAnalysisError (Some "Failed to re-analyze the improved image.")
                 (reanalyzing (app w)));
     pending := pending w |}.
Proof.
  intro E. rewrite (reanalyze_click w b E).
  unfold step. cbn [pending]. rewrite nth_error_spawned.
  unfold fetchSettled, finish, reanalyzeFailed, onApp. cbn [pending app].
  rewrite removeAt_spawned. reflexivity.
Qed.



(** *** Requests in flight *)

Lemma count_spawn (p : Task -> bool) (l : list Task) (t : Task) :
  List.length (filter p (l ++ [t])) = (List.length (filter p l) + flag (p t))%nat.
Proof.
  rewrite filter_app, length_app. simpl. destruct (p t); reflexivity.
Qed.

Lemma count_removeAt (p : Task -> bool) (l : list Task) (i : nat) (t : Task) :
  nth_error l i = Some t ->
  (List.length (filter p (removeAt i l)) + flag (p t))%nat = List.length (filter p l).
Proof.
  revert i. induction l as [| a l IH]; intros [| i] H; simpl in *; try discriminate.
  - injection H as ->. destruct (p t); simpl; lia.
  - specialize (IH i H). destruct (p a); simpl; lia.
Qed.

Lemma count_replaceAt (p : Task -> bool) (l : list Task) (i : nat) (t t' : Task) :
  nth_error l i = Some t -> p t' = p t ->
  List.length (filter p (replaceAt i t' l)) = List.length (filter p l).
Proof.
  revert i. induction l as [| a l IH]; intros [| i] H E; simpl in *; try discriminate.
  - injection H as ->. rewrite E. destruct (p t); reflexivity.
  - specialize (IH i H E). destruct (p a); simpl; lia.
Qed.

Ltac use_flags :=
  repeat match goal with
         | H : _ (app _) = _ |- _ => rewrite H
         end.

Lemma step_flagsExact (w : World) (e : Event) :
  flagsExact w -> offered (app w) e = true -> flagsExact (step w e).
Proof.
  unfold flagsExact, analysesInFlight, editsInFlight.
  intros (CA & CE & X & EI & LA) O.
  destruct e as [sel | | | | | i o | i o | i o]; simpl in O |- *.
  - destruct sel as [[f u] |]; cbn; repeat split; auto.
  - unfold handleAnalyzeClick.
    destruct (selectedFile (app w)) as [file |] eqn:Sel; [| discriminate O].
    destruct (isLoadingAnalysis (app w)) eqn:Lo; [discriminate O |].
    destruct (isEditing (app w)) eqn:Ed; [discriminate O |].
    cbn. rewrite !count_spawn, CA, CE. use_flags. cbn. repeat split; auto.
  - unfold handleEditClick, editingSection in *.
    destruct (isLoadingAnalysis (app w)) eqn:Lo; [discriminate O |].
    destruct (isEditing (app w)) eqn:Ed; [rewrite andb_false_r in O; discriminate O |].
    destruct (editedImage (app w)) eqn:EdI; [rewrite andb_false_r in O; discriminate O |].
    destruct (selectedFile (app w)) eqn:Sel, (analysisResult (app w)) eqn:An;
      cbn; rewrite ?count_spawn, ?CA, ?CE; use_flags; cbn;
      repeat split; auto; discriminate.
  - unfold handleReanalyzeEdited, editingSection in *.
    destruct (isLoadingAnalysis (app w)) eqn:Lo; [discriminate O |].
    destruct (editedImage (app w)) as [src |] eqn:EdI;
      [| rewrite andb_false_r in O; discriminate O].
    destruct (isEditing (app w)) eqn:Ed; [specialize (EI eq_refl); discriminate EI |].
    cbn. rewrite !count_spawn, CA, CE. use_flags. cbn. repeat split; auto.
  - cbn. repeat split; auto.
  - destruct (nth_error (pending w) i) as [[file | file a | src | file] |] eqn:N;
      try (repeat split; assumption).
    + pose proof (count_removeAt isAnalysisTask _ _ _ N) as RA.
      pose proof (count_removeAt isEditTask _ _ _ N) as RE.
      cbn in RA, RE.
      destruct (isLoadingAnalysis (app w)) eqn:Lo; [| cbn in CA; lia].
      pose proof (X eq_refl) as Ed. rewrite Ed in CE.
      destruct o as [a | [m |]]; cbn; use_flags; cbn in *;
        repeat split; auto; try lia; try discriminate.
    + pose proof (count_removeAt isAnalysisTask _ _ _ N) as RA.
      pose proof (count_removeAt isEditTask _ _ _ N) as RE.
      cbn in RA, RE.
      destruct (isLoadingAnalysis (app w)) eqn:Lo; [| cbn in CA; lia].
      pose proof (X eq_refl) as Ed. rewrite Ed in CE.
      destruct o as [a | r]; cbn; use_flags; cbn in *;
        repeat split; auto; try lia; try discriminate.
  - destruct (nth_error (pending w) i) as [[file | file a | src | file] |] eqn:N;
      try (repeat split; assumption).
    pose proof (count_removeAt isAnalysisTask _ _ _ N) as RA.
    pose proof (count_removeAt isEditTask _ _ _ N) as RE.
    cbn in RA, RE.
    destruct (isEditing (app w)) eqn:Ed; [| cbn in CE; lia].
    destruct (isLoadingAnalysis (app w)) eqn:Lo; [specialize (X eq_refl); discriminate X |].
    destruct o as [b | [m |]]; cbn; use_flags; cbn in *;
      repeat split; auto; try lia; try discriminate.
  - destruct (nth_error (pending w) i) as [[file | file a | src | file] |] eqn:N;
      try (repeat split; assumption).
    unfold fetchSettled.
    pose proof (count_removeAt isAnalysisTask _ _ _ N) as RA.
    pose proof (count_removeAt isEditTask _ _ _ N) as RE.
    cbn in RA, RE.
    destruct (isLoadingAnalysis (app w)) eqn:Lo; [| cbn in CA; lia].
    pose proof (X eq_refl) as Ed. pose proof (LA eq_refl) as An. rewrite Ed in CE.
    destruct o as [u | r]; [destruct (fetchBlob src) as [blob |] |]; cbn;
      rewrite ?(count_replaceAt isAnalysisTask _ _ _ (ReanalyzeTask (improvedPhoto blob)) N eq_refl),
              ?(count_replaceAt isEditTask _ _ _ (ReanalyzeTask (improvedPhoto blob)) N eq_refl);
      use_flags; cbn in *;
      repeat split; auto; try lia; try discriminate.
Qed.

Lemma run_flagsExact (es : list Event) :
  forall w, flagsExact w -> offeredAll w es = true -> flagsExact (run w es).
Proof.
  induction es as [| e es IH]; intros w F O; simpl in *.
  - exact F.
  - apply andb_true_iff in O. destruct O as [O1 O2].
    apply IH; [apply step_flagsExact; assumption | exact O2].
Qed.

(** X10. Through the controls the screen offers, at most one analysis and
    at most one edit are ever in flight, never both at once, and the two
    busy flags say exactly whether there is one; while an analysis is in
    flight no analysis is shown, while an edit is in flight no edited
    image is held. *)
Theorem one_request_in_flight (es : list Event) :
  offeredAll start es = true ->
  let w := run start es in
  analysesInFlight w = flag (isLoadingAnalysis (app w)) /\
  editsInFlight w = flag (isEditing (app w)) /\
  (analysesInFlight w + editsInFlight w <= 1)%nat /\
  (isLoadingAnalysis (app w) = true -> analysisResult (app w) = None) /\
  (isEditing (app w) = true -> editedImage (app w) = None).
Proof.
  intros O w.
  assert (F : flagsExact w).
  { apply run_flagsExact; [| exact O]. repeat split; auto; discriminate. }
  destruct F as (CA & CE & X & EI & LA).
  repeat split; try assumption.
  rewrite CA, CE.
  destruct (isLoadingAnalysis (app w)); [rewrite (X eq_refl) |];
    destruct (isEditing (app w)); simpl; lia.
Qed.

Lemma one_request_in_flight_witness :
  analysesInFlight (run start (untilEditReady ++ [ReanalyzeEditedClick])) = 1%nat /\
  editsInFlight (run start (untilEditReady ++ [ReanalyzeEditedClick])) = 0%nat.
Proof.
  destruct (one_request_in_flight (untilEditReady ++ [ReanalyzeEditedClick]) eq_refl)
    as (A & B & _).
  split; [exact A | exact B].
Defined.

(** *** The edited image and the source *)

Lemma returnedByEdit_more (es : list Event) (e : Event) (payload : string) :
  returnedByEdit es payload -> returnedByEdit (es ++ [e]) payload.
Proof.
  intros [i H]. exists i. apply in_or_app. left. exact H.
Qed.

Lemma step_editedFromEdit (es : list Event) (w : World) (e : Event) :
  editedFromEdit es (app w) -> editedFromEdit (es ++ [e]) (app (step w e)).
Proof.
  unfold editedFromEdit. intro H.
  assert (K : match editedImage (app w) with
              | Some src =>
                  exists payload,
                    src = pngDataUrl payload /\ returnedByEdit (es ++ [e]) payload
              | None => True
              end).
  { destruct (editedImage (app w)); [| exact I].
    destruct H as (b & E & R). exists b. split; [exact E |].
    apply returnedByEdit_more. exact R. }
  clear H.
  destruct e as [[[f u] |] | | | | | i o | i o | i o]; simpl.
  - exact I.
  - exact I.
  - unfold handleAnalyzeClick. destruct (selectedFile (app w)); simpl; [exact I | exact K].
  - unfold handleEditClick.
    destruct (selectedFile (app w)), (analysisResult (app w)); simpl; exact K.
  - unfold handleReanalyzeEdited.
    destruct (editedImage (app w)) eqn:E; simpl; [exact I | rewrite E; exact I].
  - exact I.
  - destruct (nth_error (pending w) i) as [[] |]; try exact K.
    + destruct o as [a | []]; simpl; exact K.
    + destruct o as [a | r]; simpl; exact K.
  - destruct (nth_error (pending w) i) as [[] |]; try exact K.
    destruct o as [a | []]; simpl; try exact K.
    exists a. split; [reflexivity |].
    exists i. apply in_or_app. right. left. reflexivity.
  - destruct (nth_error (pending w) i) as [[] |]; try exact K.
    unfold fetchSettled.
    destruct o as [a | r]; [destruct (fetchBlob newImageSrc) |]; simpl; exact K.
Qed.

(** X11. Whatever happened before, an edited image held by the controller
    is the string [data:image/png;base64,] followed by the image that an
    edit request of the run returned when it succeeded: nothing else ever
    sets it. *)
Theorem edited_image_is_returned_png (es : list Event) (src : string) :
  editedImage (app (run start es)) = Some src ->
  exists payload,
    src = pngDataUrl payload /\ returnedByEdit es payload.
Proof.
  intro E.
  assert (P : editedFromEdit es (app (run start es))).
  { clear E. induction es as [| e es IH] using rev_ind.
    - exact I.
    - unfold run. rewrite fold_left_app. simpl.
      apply step_editedFromEdit. exact IH. }
  unfold editedFromEdit in P. rewrite E in P. exact P.
Qed.

Lemma edited_image_is_returned_png_witness :
  exists payload,
    pngDataUrl "SU1Q" = pngDataUrl payload /\ returnedByEdit untilEditReady payload.
Proof.
  apply (edited_image_is_returned_png untilEditReady (pngDataUrl "SU1Q")). reflexivity.
Defined.

Lemma step_paired (w : World) (e : Event) : paired (app w) -> paired (app (step w e)).
Proof.
  unfold paired. intro H.
  destruct e as [[[f u] |] | | | | | i o | i o | i o]; simpl; try exact H; try reflexivity.
  - unfold handleAnalyzeClick.
    destruct (selectedFile (app w)) eqn:S; simpl; rewrite ?S; exact H.
  - unfold handleEditClick.
    destruct (selectedFile (app w)) eqn:S, (analysisResult (app w)); simpl;
      rewrite ?S; exact H.
  - unfold handleReanalyzeEdited. destruct (editedImage (app w)); simpl; exact H.
  - destruct (nth_error (pending w) i) as [[] |]; try exact H.
    + destruct o as [a | []]; simpl; exact H.
    + destruct o as [a | r]; simpl; exact H.
  - destruct (nth_error (pending w) i) as [[] |]; try exact H.
    destruct o as [a | []]; simpl; exact H.
  - destruct (nth_error (pending w) i) as [[] |]; try exact H.
    unfold fetchSettled.
    destruct o as [a | r]; [destruct (fetchBlob newImageSrc) |]; simpl;
      try reflexivity; exact H.
Qed.

(** X12. The source image and its preview are set and cleared together:
    in every state the controller can reach there is a preview exactly
    when there is a selected file. *)
Theorem preview_iff_selected (es : list Event) :
  selectedFile (app (run start es)) = None <->
  previewUrl (app (run start es)) = None.
Proof.
  assert (P : paired (app (run start es))).
  { generalize start (eq_refl : paired (app start)).
    induction es as [| e es IH]; intros w H; simpl; [exact H |].
    apply IH, step_paired, H. }
  unfold paired, isSome in P.
  destruct (selectedFile (app (run start es))), (previewUrl (app (run start es)));
    split; intro; congruence.
Qed.

(** *** Reading a file *)

Lemma split_commaFree (str : string) :
  commaFree str = true -> Js.split "," str = [str].
Proof.
  induction str as [| c str IH]; simpl; [reflexivity |].
  intro H. apply andb_true_iff in H. destruct H as [Hc Hs].
  apply negb_true_iff in Hc. rewrite Hc, (IH Hs). reflexivity.
Qed.

Lemma split_at_comma (header rest : string) :
  commaFree header = true ->
  Js.split "," (header ++ String "," rest) = header :: Js.split "," rest.
Proof.
  induction header as [| c header IH]; simpl; [reflexivity |].
  intro H. apply andb_true_iff in H. destruct H as [Hc Hs].
  apply negb_true_iff in Hc. rewrite Hc, (IH Hs). reflexivity.
Qed.

(** X13. [reader.result.split(',')[1]] is what stands between the first
    comma and the second one, or the end: for a data URL whose header has
    no comma it is the whole payload when the payload has no comma (base64
    has none), only its first piece otherwise; and it is [undefined] when
    the text read has no comma at all. *)
Theorem base64String_payload (header payload rest : string) :
  commaFree header = true -> commaFree payload = true ->
  base64String (header ++ String "," payload) = Some payload /\
  base64String (header ++ String "," (payload ++ String "," rest)) = Some payload /\
  base64String header = None.
Proof.
  intros H P. unfold base64String.
  rewrite !split_at_comma by assumption.
  rewrite (split_commaFree payload P), (split_commaFree header H).
  repeat split; reflexivity.
Qed.

Lemma base64String_payload_witness :
  base64String "data:image/jpeg;base64,QUFB" = Some "QUFB".
Proof.
  apply (base64String_payload "data:image/jpeg;base64" "QUFB" ""); reflexivity.
Defined.

(** *** The two cycles of the workflow *)

(** X19. The analysis cycle: with a file selected and nothing running,
    [Analyze] is offered; the click starts one task for that file, shows
    [Analyzing] and disables the button.  When the task succeeds the
    analysis is installed and no edited image is held; when it fails the
    controller is in [AnalysisError] with the message of the error, or a
    fixed one if what was thrown is no [Error].  Either way the task is
    gone, the file is still selected, [Analyze] is offered again, and an
    edit error left by an earlier edit is still there. *)
Theorem analysis_cycle (w : World) (file : File) (o : Outcome PhotoAnalysis) :
  selectedFile (app w) = Some file ->
  isLoadingAnalysis (app w) = false ->
  isEditing (app w) = false ->
  let w1 := step w AnalyzeClick in
  let w2 := step w1 (AnalysisSettles (List.length (pending w)) o) in
  offered (app w) AnalyzeClick = true /\
  (phase (app w1) = Analyzing /\
   pending w1 = pending w ++ [AnalyzeTask file] /\
   offered (app w1) AnalyzeClick = false) /\
  (pending w2 = pending w /\
   selectedFile (app w2) = Some file /\
   editedImage (app w2) = None /\
   editError (app w2) = editError (app w) /\
   offered (app w2) AnalyzeClick = true) /\
  match o with
  | Fulfilled result =>
      analysisResult (app w2) = Some result /\ analysisError (app w2) = None /\
      (editError (app w) = None -> phase (app w2) = Ready)
  | Rejected r =>
      phase (app w2) = AnalysisError /\
      analysisError (app w2) = Some (analysisMessage r) /\
      analysisResult (app w2) = None
  end.
Proof.
  intros S L E w1 w2. subst w2 w1.
  assert (E1 : step w AnalyzeClick =
               {| app := setEditedImage None (setAnalysisResult None
                           (setAnalysisError None (setIsLoadingAnalysis true (app w))));
                  pending := pending w ++ [AnalyzeTask file] |}).
  { simpl. unfold handleAnalyzeClick. rewrite S. reflexivity. }
  rewrite E1. unfold step. cbn [pending]. rewrite nth_error_spawned.
  destruct o as [result | [m |]]; cbn;
    rewrite ?removeAt_spawned, ?S, ?L, ?E; cbn;
    repeat split; try reflexivity; intros ->; reflexivity.
Qed.

Lemma analysis_cycle_witness :
  phase (app (run start [ImageSelect (Some (photoA, "blob:a")); AnalyzeClick;
                         AnalysisSettles 0 (Rejected NotAnError)])) = AnalysisError /\
  offered (app (run start [ImageSelect (Some (photoA, "blob:a")); AnalyzeClick;
                           AnalysisSettles 0 (Rejected NotAnError)])) AnalyzeClick = true.
Proof.
  destruct (analysis_cycle (step start (ImageSelect (Some (photoA, "blob:a"))))
              photoA (Rejected NotAnError) eq_refl eq_refl eq_refl)
    as (_ & _ & (_ & _ & _ & _ & O) & (P & _)).
  split; [exact P | exact O].
Defined.

(** X20. The edit cycle: when an analysis is shown for a selected file
    and no edit is running or held, the click on the edit button starts
    one task for that file and that analysis and shows [Editing].  When the
    task succeeds the controller is in [EditReady], holding the PNG data
    URL of the image returned; when it fails it is in [EditError] with the
    message, and the edit button is offered again.  Either way the task is
    gone and the file and the analysis are the ones the edit started from. *)
Theorem edit_cycle (w : World) (file : File) (analysis : PhotoAnalysis)
    (o : Outcome string) :
  selectedFile (app w) = Some file ->
  analysisResult (app w) = Some analysis ->
  offered (app w) EditClick = true ->
  let w1 := step w EditClick in
  let w2 := step w1 (EditSettles (List.length (pending w)) o) in
  (phase (app w1) = Editing /\
   pending w1 = pending w ++ [EditTask file analysis] /\
   offered (app w1) EditClick = false) /\
  (pending w2 = pending w /\
   selectedFile (app w2) = Some file /\
   analysisResult (app w2) = Some analysis) /\
  match o with
  | Fulfilled improved =>
      phase (app w2) = EditReady /\
      editedImage (app w2) = Some (pngDataUrl improved) /\
      editError (app w2) = None /\
      offered (app w2) ReanalyzeEditedClick = true
  | Rejected r =>
      phase (app w2) = EditError /\
      editError (app w2) = Some (editMessage r) /\
      editedImage (app w2) = None /\
      offered (app w2) EditClick = true
  end.
Proof.
  intros S A O w1 w2. subst w2 w1.
  assert (E1 : step w EditClick =
               {| app := setEditError None (setIsEditing true (app w));
                  pending := pending w ++ [EditTask file analysis] |}).
  { simpl. unfold handleEditClick. rewrite S, A. reflexivity. }
  rewrite E1. unfold step. cbn [pending]. rewrite nth_error_spawned.
  unfold offered, editingSection in O.
  destruct (isLoadingAnalysis (app w)) eqn:L; [discriminate O |].
  destruct (analysisError (app w)) eqn:AE; [discriminate O |].
  destruct (isEditing (app w)) eqn:E; [rewrite andb_false_r in O; discriminate O |].
  destruct (editedImage (app w)) eqn:EI; [rewrite andb_false_r in O; discriminate O |].
  destruct o as [improved | [m |]]; cbn;
    unfold phase, offered, editingSection; cbn;
    rewrite ?removeAt_spawned, ?S, ?A, ?L, ?AE, ?E, ?EI; cbn;
    repeat split; reflexivity.
Qed.

Lemma edit_cycle_witness :
  phase (app (run start untilEditReady)) = EditReady /\
  editedImage (app (run start untilEditReady)) = Some (pngDataUrl "SU1Q").
Proof.
  destruct (edit_cycle
              (run start [ImageSelect (Some (photoA, "blob:a")); AnalyzeClick;
                          AnalysisSettles 0 (Fulfilled critique)])
              photoA critique (Fulfilled "SU1Q") eq_refl eq_refl eq_refl)
    as (_ & _ & (P & I & _)).
  split; [exact P | exact I].
Defined.

End AppFacts.

Module ComparisonViewFacts.
Import ComparisonView.
Local Open Scope list_scope.

(** *** The clamp [Math.max(0, Math.min(100, t))] *)








(** *** Invariants of the viewer *)

Lemma newPosition_finite (rect : Rect) (clientX : Q) :
  ~ width rect == 0 ->
  newPosition rect clientX = Js.Finite (newPos rect clientX).
Proof.
  intro W. unfold newPosition, Js.divide.
  destruct (Qeq_bool (width rect) 0) eqn:E; [| reflexivity].
  apply Qeq_bool_iff in E. contradiction.
Qed.



Lemma newPosition_flat_edge (rect : Rect) (clientX : Q) :
  degenerate rect clientX -> newPosition rect clientX = Js.NaN.
Proof.
  intros [W L]. unfold newPosition, Js.divide.
  apply Qeq_bool_iff in W. rewrite W.
  assert (E : Qeq_bool (clientX - left rect) 0 = true) by (apply Qeq_bool_iff; lra).
  rewrite E. reflexivity.
Qed.




Lemma handleZoomIn_inRange (st : State) :
  scaleInRange st -> scaleInRange (handleZoomIn st).
Proof.
  unfold scaleInRange. intros [L U]. simpl. split.
  - apply Q.min_glb; lra.
  - apply Q.le_min_r.
Qed.

Lemma handleZoomOut_inRange (st : State) :
  scaleInRange st -> scaleInRange (handleZoomOut st).
Proof.
  unfold scaleInRange, handleZoomOut. intros [L U].
  destruct (Js.ltb (scale st / 1.5) 1.1) eqn:C; simpl.
  - lra.
  - apply JsFacts.ltb_ge in C. split; [lra |].
    apply Qle_shift_div_r; lra.
Qed.

Lemma step_scaleInRange (st : State) (e : Event) :
  scaleInRange st -> scaleInRange (step st e).
Proof.
  intro H. destruct e; simpl.
  - unfold handleContainerMouseDown.
    destruct (Js.ltb 1 (scale st)); [exact H |].
    destruct container; exact H.
  - destruct container; exact H.
  - unfold handleMove. destruct (isResizing st).
    + destruct container; exact H.
    + destruct (isPanning st); [| exact H].
      destruct (panStartRef st); exact H.
  - unfold handleUp. destruct (isResizing st), (isPanning st); exact H.
  - apply handleZoomIn_inRange. exact H.
  - apply handleZoomOut_inRange. exact H.
  - unfold scaleInRange. simpl. lra.
Qed.

Lemma run_preserves (P : State -> Prop) :
  (forall st e, P st -> P (step st e)) ->
  forall es st, P st -> P (run st es).
Proof.
  intros S es. induction es as [| e es IH]; intros st H; simpl.
  - exact H.
  - apply IH, S, H.
Qed.

(** C8. Zoom step and snap to unity: [handleZoomIn] sets the scale to
    min(scale * 1.5, 8); [handleZoomOut] divides it by 1.5 and, whenever
    the quotient is below 1.1, sets the scale to exactly 1 and the pan to
    (0,0) -- so at scale 1.05 --, otherwise keeps the quotient and the
    pan; and from a scale in [1, 8] the scale stays in [1, 8] under both,
    and under every sequence of operations of the viewer. *)
Theorem zoom_step_and_snap (st : State) (es : list Event) :
  scaleInRange st ->
  scale (handleZoomIn st) = Qmin (scale st * 1.5) 8 /\
  (scale st / 1.5 < 1.1 ->
   scale (handleZoomOut st) = 1 /\ pan (handleZoomOut st) = origin) /\
  (1.1 <= scale st / 1.5 ->
   scale (handleZoomOut st) = scale st / 1.5 /\ pan (handleZoomOut st) = pan st) /\
  (scale st == 1.05 ->
   scale (handleZoomOut st) = 1 /\ pan (handleZoomOut st) = origin) /\
  scaleInRange (handleZoomIn st) /\
  scaleInRange (handleZoomOut st) /\
  scaleInRange (run st es) /\
  scaleInRange (run initial es).
Proof.
  intro H.
  assert (Snap : scale st / 1.5 < 1.1 ->
                 scale (handleZoomOut st) = 1 /\ pan (handleZoomOut st) = origin).
  { intro C. apply JsFacts.ltb_lt in C. unfold handleZoomOut. rewrite C.
    split; reflexivity. }
  split; [reflexivity |].
  split; [exact Snap |].
  split.
  { intro C. apply JsFacts.ltb_ge in C. unfold handleZoomOut. rewrite C.
    split; reflexivity. }
  split.
  { intro E. apply Snap. apply Qlt_shift_div_r; [reflexivity |]. rewrite E. reflexivity. }
  split; [apply handleZoomIn_inRange; exact H |].
  split; [apply handleZoomOut_inRange; exact H |].
  split.
  - apply (run_preserves scaleInRange step_scaleInRange). exact H.
  - apply (run_preserves scaleInRange step_scaleInRange).
    unfold scaleInRange. simpl. lra.
Qed.

Lemma zoom_step_and_snap_witness :
  scale (handleZoomOut nearUnity) = 1 /\
  pan (handleZoomOut nearUnity) = origin /\
  scaleInRange (run nearUnity [ZoomIn; ZoomIn; ZoomIn; ZoomIn; ZoomIn; ZoomIn; ZoomOut]).
Proof.
  assert (R : scaleInRange nearUnity).
  { unfold scaleInRange, Qle. simpl. lia. }
  pose proof (zoom_step_and_snap nearUnity
                [ZoomIn; ZoomIn; ZoomIn; ZoomIn; ZoomIn; ZoomIn; ZoomOut] R)
    as (_ & _ & _ & S & _ & _ & I & _).
  destruct (S (Qeq_refl _)) as [S1 S2].
  split; [exact S1 | split; [exact S2 | exact I]].
Defined.




(** *** Further properties of the viewer *)

Lemma run_cons (st : State) (e : Event) (es : list Event) :
  run st (e :: es) = run (step st e) es.
Proof. reflexivity. Qed.

Lemma run_snoc (st : State) (es : list Event) (e : Event) :
  run st (es ++ [e]) = step (run st es) e.
Proof. unfold run. rewrite fold_left_app. reflexivity. Qed.

Lemma step_anchored (st : State) (e : Event) : anchored st -> anchored (step st e).
Proof.
  unfold anchored. intro H. destruct e; simpl.
  - unfold handleContainerMouseDown.
    destruct (Js.ltb 1 (scale st)); [reflexivity |].
    destruct container; exact H.
  - destruct container; exact H.
  - unfold handleMove. destruct (isResizing st).
    + destruct container; exact H.
    + destruct (isPanning st) eqn:P; [| rewrite P; exact H].
      destruct (panStartRef st) eqn:A; simpl; rewrite ?P, ?A; reflexivity || exact H.
  - unfold handleUp.
    destruct (isResizing st), (isPanning st) eqn:P; simpl; rewrite ?P;
      try reflexivity; exact H.
  - exact H.
  - unfold handleZoomOut. destruct (Js.ltb _ _); exact H.
  - exact H.
Qed.

(** X4. In every state the viewer can reach, the pan flag is set exactly
    when a pan anchor is held, so a move while panning always finds its
    anchor; and a release ends every drag: neither flag is set and no
    anchor is held after it. *)
Theorem release_ends_drag (es : list Event) :
  anchored (run initial es) /\
  isResizing (step (run initial es) Up) = false /\
  isPanning (step (run initial es) Up) = false /\
  panStartRef (step (run initial es) Up) = None.
Proof.
  assert (A : anchored (run initial es)).
  { apply (run_preserves anchored step_anchored). reflexivity. }
  split; [exact A |].
  unfold anchored in A. simpl. unfold handleUp.
  destruct (isResizing (run initial es)) eqn:R,
           (isPanning (run initial es)) eqn:P; simpl; rewrite ?R, ?P;
    repeat split; try reflexivity;
    destruct (panStartRef (run initial es)); (reflexivity || discriminate).
Qed.

Lemma moves_while_panning (cps : list (option Rect * Point)) :
  forall (st : State) (anchor : Point),
    isResizing st = false -> isPanning st = true ->
    panStartRef st = Some anchor ->
    let st' := run st (moves cps) in
    isResizing st' = false /\ isPanning st' = true /\
    panStartRef st' = Some anchor /\
    sliderPosition st' = sliderPosition st /\ scale st' = scale st.
Proof.
  induction cps as [| [c p] cps IH]; intros st anchor R P A; simpl.
  - repeat split; assumption.
  - unfold handleMove. rewrite R, P, A.
    apply (IH (setPan _ st) anchor); assumption.
Qed.

(** X5. Panning follows the pointer: when the view is zoomed in and no
    slider drag is going on, a press on the container at [p0], any moves,
    and a move to [p] leave the pan displaced by [p - p0] from where it
    was, whatever the moves in between; the slider and the zoom do not
    change. *)
Theorem pan_follows_pointer
    (st : State) (c c' : option Rect) (p0 p : Point)
    (cps : list (option Rect * Point)) :
  1 < scale st -> isResizing st = false ->
  let st' := run st (ContainerDown c p0 :: moves cps ++ [Move c' p]) in
  x (pan st') == x (pan st) + (x p - x p0) /\
  y (pan st') == y (pan st) + (y p - y p0) /\
  isPanning st' = true /\
  sliderPosition st' = sliderPosition st /\
  scale st' = scale st.
Proof.
  intros Z R st'. subst st'.
  apply JsFacts.ltb_lt in Z.
  assert (E1 : step st (ContainerDown c p0) = startPanning p0 st).
  { simpl. unfold handleContainerMouseDown. rewrite Z. reflexivity. }
  rewrite run_cons, run_snoc, E1.
  destruct (moves_while_panning cps (startPanning p0 st) _ R eq_refl eq_refl)
    as (R2 & P2 & A2 & S2 & Z2).
  set (st2 := run (startPanning p0 st) (moves cps)) in *.
  simpl step. unfold handleMove. rewrite R2, P2, A2. simpl.
  rewrite S2, Z2. simpl.
  repeat split; [ring | ring | exact P2].
Qed.

Lemma pan_follows_pointer_witness :
  x (pan (run (setScale 2 initial)
            [ContainerDown None {| x := 10; y := 10 |};
             Move None {| x := 50; y := 0 |};
             Move None {| x := 25; y := 40 |}])) == 15.
Proof.
  assert (Z : 1 < scale (setScale 2 initial)) by reflexivity.
  destruct (pan_follows_pointer (setScale 2 initial) None None
              {| x := 10; y := 10 |} {| x := 25; y := 40 |}
              [(None, {| x := 50; y := 0 |})] Z eq_refl) as (X & _).
  rewrite X. reflexivity.
Defined.

Lemma moves_while_resizing (cps : list (option Rect * Point)) :
  forall st : State,
    isResizing st = true ->
    let st' := run st (moves cps) in
    isResizing st' = true /\ isPanning st' = isPanning st /\
    pan st' = pan st /\ scale st' = scale st.
Proof.
  induction cps as [| [c p] cps IH]; intros st R; simpl.
  - repeat split; assumption.
  - unfold handleMove. rewrite R.
    destruct (IH (updateSliderPosition c (x p) st)) as (R' & P' & N' & Z').
    + destruct c; exact R.
    + repeat split; try assumption.
      * rewrite P'. destruct c; reflexivity.
      * rewrite N'. destruct c; reflexivity.
      * rewrite Z'. destruct c; reflexivity.
Qed.

(** X6. At scale 1 a drag on the container is a slider drag: after the
    press and any moves the viewer is in slider mode, and neither the pan
    nor the zoom has changed. *)
Theorem container_drag_slides_at_unity
    (st : State) (c : option Rect) (p0 : Point)
    (cps : list (option Rect * Point)) :
  scale st <= 1 -> isPanning st = false ->
  let st' := run st (ContainerDown c p0 :: moves cps) in
  isResizing st' = true /\ isPanning st' = false /\
  pan st' = pan st /\ scale st' = scale st.
Proof.
  intros Z P st'. subst st'.
  apply JsFacts.ltb_ge in Z.
  assert (E1 : step st (ContainerDown c p0) = startResizing c p0 st).
  { simpl. unfold handleContainerMouseDown. rewrite Z. reflexivity. }
  rewrite run_cons, E1.
  destruct (moves_while_resizing cps (startResizing c p0 st)) as (R' & P' & N' & Z').
  - destruct c; reflexivity.
  - repeat split; try assumption.
    + rewrite P'. destruct c; exact P.
    + rewrite N'. destruct c; reflexivity.
    + rewrite Z'. destruct c; reflexivity.
Qed.

Lemma container_drag_slides_at_unity_witness :
  isResizing (run initial [ContainerDown (Some box) {| x := 200; y := 5 |};
                           Move (Some box) {| x := 300; y := 80 |}]) = true /\
  pan (run initial [ContainerDown (Some box) {| x := 200; y := 5 |};
                    Move (Some box) {| x := 300; y := 80 |}]) = pan initial.
Proof.
  assert (Z : scale initial <= 1) by discriminate.
  destruct (container_drag_slides_at_unity initial (Some box)
              {| x := 200; y := 5 |} [(Some box, {| x := 300; y := 80 |})]
              Z eq_refl) as (R & _ & N & _).
  split; [exact R | exact N].
Defined.

(** X7. The slider follows the pointer monotonically: in a container of
    positive width, a pointer further to the right never gives a smaller
    position -- the positions being the finite values the slider stores. *)
Theorem newPos_monotone (rect : Rect) (x1 x2 : Q) :
  0 < width rect -> x1 <= x2 ->
  newPos rect x1 <= newPos rect x2 /\
  newPosition rect x1 = Js.Finite (newPos rect x1) /\
  newPosition rect x2 = Js.Finite (newPos rect x2).
Proof.
  intros W L. split.
  - unfold newPos.
    apply Q.max_le_compat_l, Q.min_le_compat_l.
    assert (I : 0 <= / width rect) by (apply Qlt_le_weak, Qinv_lt_0_compat; exact W).
    assert (D : (x1 - left rect) / width rect <= (x2 - left rect) / width rect).
    { unfold Qdiv. apply Qmult_le_compat_r; [lra | exact I]. }
    lra.
  - split; apply newPosition_finite; lra.
Qed.

Lemma newPos_monotone_witness : newPos box 150 <= newPos box 460.
Proof.
  apply (proj1 (newPos_monotone box 150 460 ltac:(reflexivity) ltac:(discriminate))).
Defined.

Lemma zoomOut_fitted_or_divided (bound : Q) (st : State) :
  fitted st \/ scale st <= bound ->
  fitted (handleZoomOut st) \/ scale (handleZoomOut st) <= bound / 1.5.
Proof.
  intros [[S P] | B]; unfold handleZoomOut.
  - left. rewrite S. split; reflexivity.
  - destruct (Js.ltb (scale st / 1.5) 1.1) eqn:C.
    + left. split; reflexivity.
    + right. cbn [scale setScale]. unfold Qdiv.
      apply Qmult_le_compat_r; [exact B | discriminate].
Qed.

(** X8. Zooming out always gets back to the fitted view: from any scale
    up to 8, five clicks on zoom-out leave the scale at exactly 1 and the
    pan at (0,0), and further clicks keep it there. *)
Theorem zoom_out_reaches_fit (st : State) (more : nat) :
  scale st <= 8 ->
  fitted (run st (repeat ZoomOut (5 + more))).
Proof.
  intro B.
  assert (F5 : fitted (run st (repeat ZoomOut 5))).
  { simpl.
    pose proof (zoomOut_fitted_or_divided 8 st (or_intror B)) as H1.
    pose proof (zoomOut_fitted_or_divided _ _ H1) as H2.
    pose proof (zoomOut_fitted_or_divided _ _ H2) as H3.
    pose proof (zoomOut_fitted_or_divided _ _ H3) as H4.
    set (st4 := handleZoomOut (handleZoomOut (handleZoomOut (handleZoomOut st)))) in *.
    destruct H4 as [[S P] | B4]; unfold handleZoomOut.
    - rewrite S. split; reflexivity.
    - assert (K : 8 / 1.5 / 1.5 / 1.5 / 1.5 < 1.1 * 1.5) by reflexivity.
      assert (C : Js.ltb (scale st4 / 1.5) 1.1 = true).
      { apply JsFacts.ltb_lt. apply Qlt_shift_div_r; [reflexivity |].
        apply Qle_lt_trans with (1 := B4). exact K. }
      rewrite C. split; reflexivity. }
  replace (repeat ZoomOut (5 + more)) with (repeat ZoomOut 5 ++ repeat ZoomOut more)
    by (symmetry; apply repeat_app).
  unfold run. rewrite fold_left_app. fold (run st (repeat ZoomOut 5)).
  generalize dependent (run st (repeat ZoomOut 5)). clear.
  induction more as [| n IH]; intros st0 F; simpl; [exact F |].
  apply IH. destruct F as [S P]. unfold handleZoomOut. rewrite S.
  split; reflexivity.
Qed.

Lemma zoom_out_reaches_fit_witness :
  fitted (run (setPan {| x := 30; y := -12 |} (setScale 8 initial))
              (repeat ZoomOut 5)).
Proof.
  apply (zoom_out_reaches_fit (setPan {| x := 30; y := -12 |} (setScale 8 initial)) 0).
  discriminate.
Defined.

(** X9. Zoom-in followed by zoom-out: from the fitted scale 1, or from a
    scale between 1.1 and 16/3, the scale is back where it was; from a
    scale above 16/3 (up to 8), where zoom-in stops at 8, it comes back to
    16/3 instead. *)
Theorem zoom_in_then_out (st : State) :
  scaleInRange st ->
  ((scale st == 1 \/ 1.1 <= scale st) -> scale st <= 16 # 3 ->
   scale (handleZoomOut (handleZoomIn st)) == scale st) /\
  ((16 # 3) < scale st ->
   scale (handleZoomOut (handleZoomIn st)) == 16 # 3).
Proof.
  intros [L U]. split.
  - intros A B.
    assert (E : scale (handleZoomIn st) == scale st * 1.5).
    { simpl. apply Q.min_l. lra. }
    unfold handleZoomOut.
    destruct (Js.ltb (scale (handleZoomIn st) / 1.5) 1.1) eqn:C; simpl scale at 1.
    + apply JsFacts.ltb_lt in C. rewrite E in C.
      assert (D : scale st * 1.5 / 1.5 == scale st) by field.
      rewrite D in C.
      destruct A as [A | A]; [symmetry; exact A | lra].
    + rewrite E. field.
  - intro B.
    assert (E : scale (handleZoomIn st) == 8).
    { simpl. apply Q.min_r. lra. }
    unfold handleZoomOut.
    destruct (Js.ltb (scale (handleZoomIn st) / 1.5) 1.1) eqn:C; simpl scale at 1.
    + apply JsFacts.ltb_lt in C. rewrite E in C. discriminate C.
    + rewrite E. reflexivity.
Qed.

Lemma zoom_in_then_out_witness :
  scale (handleZoomOut (handleZoomIn (setScale 2.25 initial))) == 2.25.
Proof.
  assert (R : scaleInRange (setScale 2.25 initial)).
  { unfold scaleInRange, Qle. simpl. lia. }
  destruct (zoom_in_then_out (setScale 2.25 initial) R) as (A & _).
  apply A; [right |]; discriminate.
Defined.

End ComparisonViewFacts.

Module ImageUploadFacts.
Import App ImageUpload.

(** X14. The drop zone selects a dropped file only when its type starts
    with [image/], and then exactly as the file dialog would; a dropped
    file of another type, or a drop without a file, leaves the whole
    application as it was.  The dialog does no such check: what it returns
    becomes the selected file, and when it returns no file the selection,
    the preview, the analysis and the edited image are cleared. *)
Theorem drop_accepts_images_only (file : File) (url : string) (w : World) :
  (Js.startsWith (file_type file) "image/" = true ->
   handleDrop (Some file) url w = handleFileChange (Some file) url w) /\
  (Js.startsWith (file_type file) "image/" = false ->
   handleDrop (Some file) url w = w) /\
  handleDrop None url w = w /\
  selectedFile (app (handleFileChange (Some file) url w)) = Some file /\
  (selectedFile (app (handleFileChange None url w)) = None /\
   previewUrl (app (handleFileChange None url w)) = None /\
   analysisResult (app (handleFileChange None url w)) = None /\
   editedImage (app (handleFileChange None url w)) = None /\
   pending (handleFileChange None url w) = pending w).
Proof.
  unfold handleDrop, handleFileChange.
  split; [intros ->; reflexivity |].
  split; [intros ->; reflexivity |].
  repeat split.
Qed.

Lemma drop_accepts_images_only_witness :
  handleDrop (Some {| file_name := "notes.pdf"; file_type := "application/pdf";
                      file_data := "JVBERg==" |}) "blob:x" start = start /\
  selectedFile (app (handleDrop (Some photoA) "blob:a" start)) = Some photoA.
Proof.
  split.
  - destruct (drop_accepts_images_only
                {| file_name := "notes.pdf"; file_type := "application/pdf";
                   file_data := "JVBERg==" |} "blob:x" start) as (_ & B & _).
    apply B. reflexivity.
  - destruct (drop_accepts_images_only photoA "blob:a" start) as (A & _ & _ & S & _).
    rewrite (A eq_refl). exact S.
Defined.

End ImageUploadFacts.

Module ServiceFacts.
Import Validator ImproveService.
Local Open Scope list_scope.

(** X15. What [analyzeImage] lets out: without an API key, always the
    error about the key; with one, either the parsed structure itself, and
    then it passes every shape check, or one and the same error, whether
    the remote call was rejected, the response had no text, the text was
    not JSON or the structure had the wrong shape. *)
Theorem analyzeImage_outcomes (variant : Variant) (r : Response) :
  analyzeImage variant false r = Throw (Error "API_KEY environment variable not set") /\
  (analyzeImage variant true r = Throw (Error failureMessage) \/
   exists parsedJson,
     r = Parsed parsedJson /\
     forallb (satisfies parsedJson) (checks variant) = true /\
     analyzeImage variant true r = Return parsedJson).
Proof.
  split; [reflexivity |].
  destruct r as [e | | | j]; try (left; reflexivity).
  change (analyzeImage variant true (Parsed j)) with (validate variant j).
  rewrite ValidatorFacts.validate_checks.
  destruct (forallb (satisfies j) (checks variant)) eqn:F.
  - right. exists j. repeat split. exact F.
  - left. reflexivity.
Qed.

Lemma mapM_member_throws (items : list json) (item : json) :
  In item items -> suggestedEdit item = Throw TypeError ->
  mapM suggestedEdit items = Throw TypeError.
Proof.
  induction items as [| a items IH]; intros Hin Hbad; [contradiction |].
  simpl. destruct Hin as [-> | Hin].
  - rewrite Hbad. reflexivity.
  - destruct (suggestedEdit a) as [b | e] eqn:A.
    + rewrite (IH Hin Hbad). reflexivity.
    + destruct a as [| | | | | members]; try (injection A as <-; reflexivity).
      simpl in A.
      destruct (lookupLast "edit" members) as [[] |];
        (discriminate A || (injection A as <-; reflexivity)).
Qed.

Lemma validated_has_array (variant : Variant) (analysis : json) :
  validate variant analysis = Return analysis ->
  exists items, suggestedEditsOf analysis = Return items.
Proof.
  rewrite ValidatorFacts.validate_checks.
  destruct (forallb (satisfies analysis) (checks variant)) eqn:F; [| discriminate].
  intros _. rewrite forallb_forall in F.
  assert (S : satisfies analysis ("suggested_edits", IsArray) = true).
  { apply F. destruct variant; simpl; tauto. }
  unfold satisfies, suggestedEditsOf in *. simpl fst in S. simpl snd in S.
  destruct (getProp analysis "suggested_edits") as [[| []] | e];
    try discriminate S.
  eexists. reflexivity.
Qed.

(** X16. What the validation does not protect the edit from: a structure
    it accepts has an array of suggested edits, but nothing is checked of
    the items; if one of them is not an object with a string [edit], the
    computation of the aspect ratio throws a [TypeError] before the [try],
    so [generateImprovedImage] fails with that [TypeError] -- not with its
    own message -- whatever the remote call would have answered. *)
Theorem unchecked_item_breaks_edit
    (analysis item : json) (w h : Q) (remote : Remote) :
  validate WithProjectedRating analysis = Return analysis ->
  (exists items,
      suggestedEditsOf analysis = Return items /\
      (In item items -> suggestedEdit item = Throw TypeError ->
       generateImprovedImage true analysis w h remote = Throw TypeError)).
Proof.
  intro V. destruct (validated_has_array WithProjectedRating analysis V) as [items E].
  exists items. split; [exact E |].
  intros Hin Hbad. unfold generateImprovedImage, targetAspectRatio. simpl negb. cbv iota.
  rewrite E, (mapM_member_throws items item Hin Hbad). reflexivity.
Qed.

(** A critique that passes the validation with a number among its edits. *)
Lemma unchecked_item_breaks_edit_witness :
  validate WithProjectedRating
    (JObject [ ("rating", JNumber 7); ("projected_rating", JNumber 8);
               ("composition", JString "c"); ("lighting", JString "l");
               ("subject", JString "s"); ("overall_comment", JString "o");
               ("suggested_edits", JArray [JNumber 1]) ])
  = Return
    (JObject [ ("rating", JNumber 7); ("projected_rating", JNumber 8);
               ("composition", JString "c"); ("lighting", JString "l");
               ("subject", JString "s"); ("overall_comment", JString "o");
               ("suggested_edits", JArray [JNumber 1]) ]) /\
  generateImprovedImage true
    (JObject [ ("rating", JNumber 7); ("projected_rating", JNumber 8);
               ("composition", JString "c"); ("lighting", JString "l");
               ("subject", JString "s"); ("overall_comment", JString "o");
               ("suggested_edits", JArray [JNumber 1]) ])
    1000 1000
    (Responds {| candidates := Some [ {| content := Some {| parts := Some
        [ {| inlineData := Some "SU1Q"; text := None |} ] |} |} ] |})
  = Throw TypeError.
Proof.
  split; [reflexivity |].
  destruct (unchecked_item_breaks_edit
              (JObject [ ("rating", JNumber 7); ("projected_rating", JNumber 8);
                         ("composition", JString "c"); ("lighting", JString "l");
                         ("subject", JString "s"); ("overall_comment", JString "o");
                         ("suggested_edits", JArray [JNumber 1]) ])
              (JNumber 1) 1000 1000
              (Responds {| candidates := Some [ {| content := Some {| parts := Some
                  [ {| inlineData := Some "SU1Q"; text := None |} ] |} |} ] |})
              eq_refl) as (items & E & H).
  injection E as <-. apply H; [left; reflexivity | reflexivity].
Defined.

Lemma firstInlineData_member (ps : list Part) (data : string) :
  firstInlineData ps = Some data ->
  exists before part after,
    ps = before ++ part :: after /\
    inlineData part = Some data /\
    Forall (fun q => inlineData q = None) before.
Proof.
  induction ps as [| q ps IH]; simpl; [discriminate |].
  destruct (inlineData q) as [d |] eqn:Q.
  - intro E. injection E as ->. exists [], q, ps. repeat split; [exact Q | constructor].
  - intro E. destruct (IH E) as (b & part & a & -> & I & F).
    exists (q :: b), part, a. repeat split; [exact I | constructor; assumption].
Qed.

(** X17. What [generateImprovedImage] lets out: the only value it returns
    is the data of the first part of the first candidate that carries
    inline data, the parts before it carrying none; and the error
    [No image data found in response], thrown inside the [try], never
    reaches the caller: a response without an image ends in the same
    [Failed to generate improved image.] as a rejected call. *)
Theorem generateImprovedImage_outcomes
    (apiKey : bool) (analysis : json) (w h : Q) (remote : Remote) :
  generateImprovedImage apiKey analysis w h remote <> Throw (Error noImageMessage) /\
  (forall data,
      generateImprovedImage apiKey analysis w h remote = Return data ->
      apiKey = true /\ editsReadable analysis /\
      exists response before part after,
        remote = Responds response /\
        responseParts response = before ++ part :: after /\
        inlineData part = Some data /\
        Forall (fun q => inlineData q = None) before) /\
  (apiKey = true -> editsReadable analysis ->
   (forall response, remote = Responds response ->
                     firstInlineData (responseParts response) = None) ->
   generateImprovedImage apiKey analysis w h remote = Throw (Error improveFailureMessage)).
Proof.
  unfold generateImprovedImage, targetAspectRatio, editsReadable.
  destruct apiKey; simpl negb; cbv iota.
  2:{ repeat split; try discriminate. }
  destruct (suggestedEditsOf analysis) as [items | e] eqn:S.
  2:{ repeat split.
      - unfold suggestedEditsOf in S.
        destruct (getProp analysis "suggested_edits") as [[| []] | e'];
          try discriminate S; injection S as <-; discriminate.
      - discriminate.
      - discriminate.
      - intros _ (items & edits & E & _). discriminate E. }
  destruct (mapM suggestedEdit items) as [edits | e] eqn:M.
  2:{ assert (T : e = TypeError).
      { clear S. revert e M. induction items as [| a items IH]; intros e M;
          simpl in M; [discriminate |].
        destruct (suggestedEdit a) as [b | e'] eqn:A.
        - destruct (mapM suggestedEdit items) as [bs | e''];
            [discriminate |]. injection M as <-. apply IH. reflexivity.
        - injection M as <-.
          destruct a as [| | | | | members]; try (injection A as <-; reflexivity).
          simpl in A.
          destruct (lookupLast "edit" members) as [[] |];
            (discriminate A || (injection A as <-; reflexivity)). }
      subst e. repeat split; try discriminate.
      intros _ (items' & edits & E & M'). injection E as <-.
      rewrite M in M'. discriminate M'. }
  destruct remote as [e | response]; simpl.
  - repeat split; try discriminate.
  - destruct (firstInlineData (responseParts response)) as [d |] eqn:F; simpl.
    + split; [discriminate |]. split.
      * intros data H. injection H as <-.
        split; [reflexivity |].
        split; [exists items, edits; split; [reflexivity | exact M] |].
        destruct (firstInlineData_member _ _ F) as (b & part & a & E & I & N).
        exists response, b, part, a. repeat split; assumption.
      * intros _ _ N. specialize (N response eq_refl). rewrite F in N. discriminate N.
    + repeat split; try discriminate.
Qed.

Lemma generateImprovedImage_outcomes_witness :
  generateImprovedImage true threeEdits 1000 1000
    (Responds {| candidates := Some [ {| content := Some {| parts := Some [] |} |} ] |})
  = Throw (Error improveFailureMessage).
Proof.
  destruct (generateImprovedImage_outcomes true threeEdits 1000 1000
              (Responds {| candidates := Some [ {| content := Some {| parts := Some [] |} |} ] |}))
    as (_ & _ & H).
  apply H; [reflexivity | |].
  - eexists. eexists. split; reflexivity.
  - intros response E. injection E as <-. reflexivity.
Defined.

End ServiceFacts.

Module AnalysisDisplayFacts.
Import AnalysisDisplay.
Local Open Scope list_scope.

Lemma ltb_eq_r (a c c' : Q) : c == c' -> Js.ltb a c = Js.ltb a c'.
Proof.
  intro E. destruct (Js.ltb a c') eqn:C.
  - apply JsFacts.ltb_lt in C. apply JsFacts.ltb_lt. rewrite E. exact C.
  - apply JsFacts.ltb_ge in C. apply JsFacts.ltb_ge. rewrite E. exact C.
Qed.

(** The clamp of an integer is the integer clamp. *)
Lemma clamp_inject (z : Z) :
  Qmax 0 (Qmin totalStars (inject_Z z)) == inject_Z (Z.max 0 (Z.min 10 z)).
Proof.
  unfold totalStars.
  destruct (Z.lt_ge_cases z 0) as [N | P].
  - rewrite (Z.min_r 10 z), (Z.max_l 0 z) by lia.
    assert (inject_Z z <= 0) by (change 0 with (inject_Z 0); rewrite <- Zle_Qle; lia).
    rewrite (Q.min_r 10 (inject_Z z)) by lra. apply Q.max_l. assumption.
  - destruct (Z.lt_ge_cases z 10) as [L | G].
    + rewrite (Z.min_r 10 z), (Z.max_r 0 z) by lia.
      assert (0 <= inject_Z z) by (change 0 with (inject_Z 0); rewrite <- Zle_Qle; lia).
      assert (inject_Z z <= 10) by (change 10 with (inject_Z 10); rewrite <- Zle_Qle; lia).
      rewrite (Q.min_r 10 (inject_Z z)) by assumption. apply Q.max_r. assumption.
    + rewrite (Z.min_l 10 z), (Z.max_r 0 10) by lia.
      assert (10 <= inject_Z z) by (change 10 with (inject_Z 10); rewrite <- Zle_Qle; lia).
      rewrite (Q.min_l 10 (inject_Z z)) by assumption. reflexivity.
Qed.

Lemma stars_of_clamp (rating : Q) (k : Z) :
  clampedRating rating == inject_Z k ->
  stars rating = map (fun i => Js.ltb (inject_Z (Z.of_nat i)) (inject_Z k)) (seq 0 10).
Proof.
  intro E. unfold stars. apply map_ext. intro i. apply ltb_eq_r. exact E.
Qed.

(** X18. The stars of a rating: the filled stars come first, and their
    number is the rating rounded to the nearest integer (a half going up)
    and kept between 0 and 10 -- so within one half of a rating between 0
    and 10, none below one half, all ten from nine and a half on. *)
Theorem stars_show_rounded_rating (rating : Q) :
  exists filled : nat,
    (filled <= 10)%nat /\
    stars rating = repeat true filled ++ repeat false (10 - filled) /\
    inject_Z (Z.of_nat filled) == clampedRating rating /\
    (0 <= rating <= 10 ->
     rating - (1 # 2) < inject_Z (Z.of_nat filled) <= rating + (1 # 2)) /\
    (rating < 1 # 2 -> filled = 0%nat) /\
    ((19 # 2) <= rating -> filled = 10%nat).
Proof.
  set (z := Js.round rating).
  assert (Hle : inject_Z z <= rating + (1 # 2)) by apply Qfloor_le.
  assert (Hlt : rating + (1 # 2) < inject_Z z + 1).
  { pose proof (Qlt_floor (rating + (1 # 2))) as H.
    rewrite inject_Z_plus in H. exact H. }
  set (k := Z.max 0 (Z.min 10 z)).
  assert (E : clampedRating rating == inject_Z k) by apply clamp_inject.
  assert (R : (0 <= k <= 10)%Z) by (unfold k; lia).
  exists (Z.to_nat k).
  rewrite (Z2Nat.id k) by lia.
  split; [lia |]. split.
  { rewrite (stars_of_clamp rating k E).
    assert (C : (k = 0 \/ k = 1 \/ k = 2 \/ k = 3 \/ k = 4 \/ k = 5 \/ k = 6 \/
                 k = 7 \/ k = 8 \/ k = 9 \/ k = 10)%Z) by lia.
    clear - C. generalize dependent k. intros k C.
    repeat (destruct C as [-> | C]; [reflexivity |]). subst k. reflexivity. }
  split; [symmetry; exact E |].
  split; [| split].
  - intros [L U].
    assert (Z0 : (0 <= z)%Z).
    { assert (H : inject_Z (-1) < inject_Z z) by (change (inject_Z (-1)) with (-1); lra).
      rewrite <- Zlt_Qlt in H. lia. }
    assert (Z10 : (z <= 10)%Z).
    { assert (H : inject_Z z < inject_Z 11) by (change (inject_Z 11) with 11; lra).
      rewrite <- Zlt_Qlt in H. lia. }
    assert (K : k = z) by (unfold k; lia).
    rewrite K. split; lra.
  - intro L.
    assert (H : inject_Z z < inject_Z 1) by (change (inject_Z 1) with 1; lra).
    rewrite <- Zlt_Qlt in H.
    assert (K : k = 0%Z) by (unfold k; lia). rewrite K. reflexivity.
  - intro U.
    assert (H : inject_Z 9 < inject_Z z) by (change (inject_Z 9) with 9; lra).
    rewrite <- Zlt_Qlt in H.
    assert (K : k = 10%Z) by (unfold k; lia). rewrite K. reflexivity.
Qed.

Lemma stars_show_rounded_rating_witness :
  exists filled : nat,
    stars 7.4 = repeat true filled ++ repeat false (10 - filled) /\
    7.4 - (1 # 2) < inject_Z (Z.of_nat filled) <= 7.4 + (1 # 2).
Proof.
  destruct (stars_show_rounded_rating 7.4) as (filled & _ & S & _ & N & _).
  exists filled. split; [exact S |].
  apply N. split; discriminate.
Defined.

End AnalysisDisplayFacts.
